(** * miio.click_common: command registration, dispatch and output pipeline

    A shallow embedding of [src/miio/click_common.py] and the properties of
    its registry construction, command resolution, autodetect guard and
    output strategies.

    Conventions of the embedding.
    - A Python [str] is a Rocq [string], one [ascii] per character (code
      points below 256); [len] is [String.length] and string comparison is
      lexicographic on character codes, as in Python.
    - Python values that flow through the pipeline are [pyval].
    - Code that may raise and that mutates shared objects lives in the
      monad [M]: a function from the world to an outcome and a new world.
      A raised exception keeps the effects performed before it.
    - Python and click built-ins that the module calls but does not define
      ([str.lower], [str.strip], [str.format], [json.dumps]) are the fields
      of the class [PyBuiltins]; the device's [_fetch_info] is the field of
      [DeviceImpl].  A reference instance of each is given for running the
      definitions on concrete inputs. *)

From Stdlib Require Import String Ascii List ZArith Lia DecimalString Sorting.Sorted.
From stdpp Require Import base option list gmap strings sorting.

Set Warnings "-register-all".

Local Open Scope list_scope.
Local Open Scope string_scope.

(** ** Python values and exceptions *)

Inductive pyval : Type :=
  | PyNone
  | PyBool (b : bool)
  | PyInt (n : Z)
  | PyStr (s : string)
  | PyList (xs : list pyval)
  | PyDict (kvs : list (string * pyval))
  | PyMethod (ret : pyval)
      (* a bound method without arguments, returning [ret] *)
  | PyObj (cls : string) (attrs : list (string * pyval)).
      (* an instance with the given attributes *)

(** [value is None] *)
Definition is_None (v : pyval) : bool :=
  match v with PyNone => true | _ => false end.

(** Lookup in an ordered attribute table: the first binding wins. *)
Fixpoint assoc {A : Type} (k : string) (l : list (string * A)) : option A :=
  match l with
  | [] => None
  | (k', v) :: l' => if String.eqb k k' then Some v else assoc k l'
  end.

(** [getattr(v, attr, None)]: only instances carry the attributes the
    pipeline probes for ([__cli_output__], [__json__], [data]). *)
Definition getattr (v : pyval) (attr : string) : pyval :=
  match v with
  | PyObj _ attrs => match assoc attr attrs with Some a => a | None => PyNone end
  | _ => PyNone
  end.

Inductive exc : Type :=
  | DeviceError (args : list pyval)   (* miio.exceptions.DeviceError and subclasses *)
  | BadParameter (msg : string)       (* click.BadParameter, a usage error *)
  | UsageError (msg : string)         (* raised by ctx.fail *)
  | RuntimeError (msg : string)
  | AttributeError (attr : string)
  | IndexError
  | KeyError (key : string)
  | TypeError (msg : string)
  | OtherException (cls : string) (args : list pyval).

Inductive outcome (A : Type) : Type :=
  | Ok (a : A)
  | Raise (e : exc).
Arguments Ok {A} a.
Arguments Raise {A} e.

(** Keyword arguments ([**kwargs]) and descriptor options. *)
Abbreviation Kwargs := (gmap string pyval).

(** ** The world: device instance, descriptor options, observable events *)

(** The device instance stored in [ctx.obj]: the two caches the guard reads. *)
Record Device : Type := mkDevice {
  _model : option string;
  _info : option pyval
}.

Inductive event : Type :=
  | EvEcho (v : pyval)     (* one call of [echo] *)
  | EvFetchInfo            (* one call of [self._fetch_info()] *)
  | EvNote (tag : string). (* a mark left by a method body or a decorator *)

(** [Command.kwargs] is a dict owned by a descriptor object and mutated in
    place ([setdefault], [pop]); descriptors are shared between a class and
    its subclasses.  The world therefore holds one dict per descriptor
    identity. *)
Record World : Type := mkWorld {
  device : Device;
  descr_kwargs : gmap positive (gmap string pyval);
  trace : list event
}.

Definition M (A : Type) : Type := World -> outcome A * World.

Definition ret {A : Type} (a : A) : M A := fun w => (Ok a, w).
Definition raise {A : Type} (e : exc) : M A := fun w => (Raise e, w).
Definition bind {A B : Type} (m : M A) (k : A -> M B) : M B :=
  fun w => match m w with
           | (Ok a, w') => k a w'
           | (Raise e, w') => (Raise e, w')
           end.

Declare Scope py_scope.
Delimit Scope py_scope with py.
Notation "'let*' x ':=' m 'in' k" := (bind m (fun x => k))
  (at level 10, x name, m at level 100, k at level 200) : py_scope.
Local Open Scope py_scope.

(** Lift a pure computation that may raise. *)
Definition lift {A : Type} (r : exc + A) : M A :=
  match r with inl e => raise e | inr a => ret a end.

Definition log (e : event) : M unit :=
  fun w => (Ok tt, mkWorld (device w) (descr_kwargs w) (trace w ++ [e])).

(** [echo(v)]: [rich.print] or [click.echo]; one event per call. *)
Definition echo (v : pyval) : M unit := log (EvEcho v).

(** What was written to the output channel, in order. *)
Definition emitted (w : World) : list pyval :=
  omap (fun e => match e with EvEcho v => Some v | _ => None end) (trace w).

(** Number of [_fetch_info] calls so far. *)
Definition fetch_count (w : World) : nat :=
  length (List.filter (fun e => match e with EvFetchInfo => true | _ => false end) (trace w)).

(** ** Built-ins used by the module *)

Class PyBuiltins : Type := {
  str_lower : string -> string;                       (* str.lower() *)
  str_strip : string -> string;                       (* str.strip() *)
  str_format : string -> Kwargs -> exc + string;      (* template.format( **kwargs ) *)
  json_dumps : option nat -> pyval -> exc + string    (* json.dumps(obj, indent=indent) *)
}.

(** The device collaborator: the body of [Device._fetch_info]. *)
Class DeviceImpl : Type := {
  fetch_info_body : M pyval
}.

(** [self._fetch_info()] as called from this module. *)
Definition _fetch_info `{DeviceImpl} : M pyval :=
  let* _ := log EvFetchInfo in fetch_info_body.

(** ["%s" % n] for a length. *)
Definition str_of_nat (n : nat) : string :=
  NilEmpty.string_of_uint (Nat.to_uint n).

(** ** Option validators *)

(** [validate_token(ctx, param, value)]; [ctx] and [param] are not used. *)
Definition validate_token {C P : Type} (ctx : C) (param : P)
    (value : option string) : exc + option string :=
  match value with
  | None => inr None
  | Some v =>
      let token_len := String.length v in
      if negb (Nat.eqb token_len 32)
      then inl (BadParameter ("Token length != 32 chars: " ++ str_of_nat token_len))
      else inr (Some v)
  end.

(** ** Callables, decorators and output strategies *)

(** A Python callable invoked as [f( *args, **kwargs )].  A bound method is a
    callable too: its [self] is the device of the world. *)
Definition Callable : Type := list pyval -> Kwargs -> M pyval.

(** A decorator, and equally an output strategy: a transform of callables. *)
Definition Decorator : Type := Callable -> Callable.

(** [bool(v)] *)
Definition truthy (v : pyval) : bool :=
  match v with
  | PyNone => false
  | PyBool b => b
  | PyInt n => negb (Z.eqb n 0)
  | PyStr s => negb (String.eqb s "")
  | PyList xs => match xs with [] => false | _ => true end
  | PyDict kvs => match kvs with [] => false | _ => true end
  | PyMethod _ => true
  | PyObj _ _ => true
  end.

(** [f()] for a value probed with [getattr]. *)
Definition call0 (f : pyval) : exc + pyval :=
  match f with
  | PyMethod r => inr r
  | _ => inl (TypeError "object is not callable")
  end.

(** A message spec of [format_output]: [Union[str, Callable]]. *)
Inductive MsgFmt : Type :=
  | FmtStr (s : string)
  | FmtCall (f : Kwargs -> M string).

(** [callable(fmt)] *)
Definition fmt_callable (fmt : MsgFmt) : bool :=
  match fmt with FmtCall _ => true | FmtStr _ => false end.

(** [bool(fmt)]: a function object is true, a string is true when not empty. *)
Definition fmt_truthy (fmt : MsgFmt) : bool :=
  match fmt with FmtCall _ => true | FmtStr s => negb (String.eqb s "") end.

(** [fmt( **kwargs )] when callable, else [fmt.format( **kwargs )]. *)
Definition render `{PyBuiltins} (fmt : MsgFmt) (kwargs : Kwargs) : M string :=
  match fmt with
  | FmtCall f => f kwargs
  | FmtStr s => lift (str_format s kwargs)
  end.

(** [if msg: echo(msg.strip())] *)
Definition echo_stripped `{PyBuiltins} (msg : string) : M unit :=
  if negb (String.eqb msg "") then echo (PyStr (str_strip msg)) else ret tt.

(** The first block of the [wrap] of [format_output]: [if msg_fmt: ...]. *)
Definition emit_msg `{PyBuiltins} (msg_fmt : MsgFmt) (kwargs : Kwargs) : M unit :=
  if fmt_truthy msg_fmt
  then let* msg := render msg_fmt kwargs in echo_stripped msg
  else ret tt.

(** The last block of the [wrap] of [format_output]: the [if ... elif ...]
    that follows the call of [func]; [kwargs] already holds [result]. *)
Definition emit_result `{PyBuiltins} (result_msg_fmt : MsgFmt) (result : pyval)
    (kwargs : Kwargs) : M unit :=
  if negb (fmt_callable result_msg_fmt)
     && negb (is_None (getattr result "__cli_output__"))
  then echo (getattr result "__cli_output__")
  else if fmt_truthy result_msg_fmt
  then let* result_msg := render result_msg_fmt kwargs in echo_stripped result_msg
  else ret tt.

(** [format_output(msg_fmt, result_msg_fmt)(func)]: the inner [wrap], which
    ends without a [return] statement. *)
Definition format_output `{PyBuiltins} (msg_fmt result_msg_fmt : MsgFmt) : Decorator :=
  fun func args kwargs =>
    let* _ := emit_msg msg_fmt kwargs in
    let* result := func args kwargs in
    let kwargs := <["result" := result]> kwargs in
    let* _ := emit_result result_msg_fmt result kwargs in
    ret PyNone.

(** The default values of the two parameters of [format_output]. *)
Definition default_msg_fmt : MsgFmt := FmtStr "".
Definition default_result_msg_fmt : MsgFmt := FmtStr "{result}".

(** [json_output(pretty)(func)]: the inner [wrap]. *)
Definition json_output `{PyBuiltins} (pretty : bool) : Decorator :=
  let indent := if pretty then Some 2 else None in
  fun func args kwargs w =>
    match func args kwargs w with
    | (Raise (DeviceError ex_args), w') =>
        (* except DeviceError as ex: echo(json.dumps(ex.args[0], ...)); return *)
        match ex_args with
        | [] => (Raise IndexError, w')
        | payload :: _ =>
            (let* s := lift (json_dumps indent payload) in
             let* _ := echo (PyStr s) in
             ret PyNone) w'
        end
    | (Raise e, w') => (Raise e, w')
    | (Ok result, w') =>
        (let get_json_data_func := getattr result "__json__" in
         let data_variable := getattr result "data" in
         let* result := (if negb (is_None get_json_data_func)
                         then lift (call0 get_json_data_func)
                         else if negb (is_None data_variable)
                         then ret data_variable
                         else ret result) in
         let* s := lift (json_dumps indent result) in
         let* _ := echo (PyStr s) in
         ret PyNone) w'
    end.

(** ** Command descriptors *)

(** A decorated function: what the descriptor reads of it. *)
Record PyFunction : Type := mkFunction {
  __name__ : string;
  __doc__ : pyval;
  fn_body : Callable
}.

(** [DeviceGroup.Command].  The record is the descriptor once
    [Command.__call__] attached the function; its [kwargs] dict is the entry
    [cmd_ref] of [descr_kwargs] in the world. *)
Record Command : Type := mkCommand {
  cmd_ref : positive;
  name : option string;
  decorators : list Decorator;
  default_output : option Decorator;
  func : PyFunction
}.

(** [Command.__init__(name, decorators, default_output=...)] followed by
    [self.func = func] of [Command.__call__]: the declared decorators are
    copied and the copy is reversed in place. *)
Definition Command_init (ref : positive) (name : option string)
    (decorators : list Decorator) (default_output : option Decorator)
    (func : PyFunction) : Command :=
  {| cmd_ref := ref;
     name := name;
     decorators := rev decorators;
     default_output := default_output;
     func := func |}.

(** [command( *decorators, name=None, default_output=None, **kwargs )(func)] *)
Definition command (ref : positive) (decorators : list Decorator)
    (name : option string) (default_output : option Decorator)
    (func : PyFunction) : Command :=
  Command_init ref name decorators default_output func.

(** The options of a new descriptor: [self.kwargs = kwargs] and then
    [self.kwargs.setdefault("help", self.func.__doc__)]. *)
Definition Command_kwargs (kwargs : Kwargs) (func : PyFunction) : Kwargs :=
  match kwargs !! "help" with
  | Some _ => kwargs
  | None => <["help" := __doc__ func]> kwargs
  end.

(** Store the options dict of a descriptor created at class definition. *)
Definition declare_kwargs (self : Command) (kwargs : Kwargs) (w : World) : World :=
  mkWorld (device w)
          (<[cmd_ref self := Command_kwargs kwargs (func self)]> (descr_kwargs w))
          (trace w).

(** [Command.command_name]: [self.name or self.func.__name__.lower()] *)
Definition command_name `{PyBuiltins} (self : Command) : string :=
  match name self with
  | Some n => if String.eqb n "" then str_lower (__name__ (func self)) else n
  | None => str_lower (__name__ (func self))
  end.

(** The options dict of descriptor [ref]. *)
Definition kwargs_of (ref : positive) (w : World) : Kwargs :=
  default ∅ (descr_kwargs w !! ref).

(** [kwargs.pop(key, dflt)] on the options dict of descriptor [ref]. *)
Definition pop_kwarg (ref : positive) (key : string) (dflt : pyval) : M pyval :=
  fun w =>
    match kwargs_of ref w !! key with
    | Some v =>
        (Ok v, mkWorld (device w)
                       (<[ref := delete key (kwargs_of ref w)]> (descr_kwargs w))
                       (trace w))
    | None => (Ok dflt, w)
    end.

Definition get_device : M Device := fun w => (Ok (device w), w).
Definition get_kwargs (ref : positive) : M Kwargs := fun w => (Ok (kwargs_of ref w), w).

(** [_autodetect_model_if_needed(func)]: the guard [_wrap].  [dgc] is the
    identity of [func._device_group_command], whose [kwargs] the guard pops. *)
Definition _autodetect_model_if_needed `{DeviceImpl} (dgc : positive)
    (func : Callable) : Callable :=
  fun args kwargs =>
    let* skip_autodetect := pop_kwarg dgc "skip_autodetect" (PyBool false) in
    let* self := get_device in
    let* _ := (if negb (truthy skip_autodetect)
                  && match _model self with None => true | Some _ => false end
                  && match _info self with None => true | Some _ => false end
               then let* _ := _fetch_info in ret tt
               else ret tt) in
    func args kwargs.

(** ** Invocation contexts *)

(** [GlobalContextObject] *)
Record GlobalContextObject : Type := mkGlobalContextObject {
  debug : Z;
  output : option Decorator
}.

(** The [obj] of one click context. *)
Inductive CtxObj : Type :=
  | ObjNone
  | ObjGlobal (gco : GlobalContextObject)
  | ObjDevice
  | ObjOther (v : pyval).

(** A click context, as the chain of the [obj] of the context itself, of
    its parent, and so on up to the root. *)
Definition Context : Type := list CtxObj.

(** [ctx.find_object(GlobalContextObject)] of click: the nearest [obj] of
    that type along the chain, or [None]. *)
Fixpoint find_object (ctx : Context) : option GlobalContextObject :=
  match ctx with
  | [] => None
  | ObjGlobal gco :: _ => Some gco
  | _ :: parent => find_object parent
  end.

(** The result of [click.command(name, **attrs)(callback)]. *)
Record ClickCommand : Type := mkClickCommand {
  click_name : string;
  click_attrs : Kwargs;
  callback : Callable
}.

(** The choice of [output] at the head of [Command.wrap].  A strategy is a
    function object, which Python takes as true, so [elif self.default_output]
    asks whether a default was given. *)
Definition wrap_output `{PyBuiltins} (self : Command) (ctx : Context) : Decorator :=
  let gco := find_object ctx in
  match gco with
  | Some {| output := Some gco_output |} => gco_output
  | _ =>
      match default_output self with
      | Some default_output => default_output
      | None =>
          format_output (FmtStr ("Running command " ++ command_name self))
                        default_result_msg_fmt
      end
  end.

(** [for decorator in decorators: func = decorator(func)] *)
Definition apply_decorators (decorators : list Decorator) (func : Callable) : Callable :=
  fold_left (fun func decorator => decorator func) decorators func.

(** [Command.wrap(ctx, func)] *)
Definition wrap `{PyBuiltins} (self : Command) (ctx : Context) (func : Callable)
    : M ClickCommand :=
  let output := wrap_output self ctx in
  (* Remove skip_autodetect before constructing the click.command *)
  let* _ := pop_kwarg (cmd_ref self) "skip_autodetect" PyNone in
  let func := output func in
  let func := apply_decorators (decorators self) func in
  let* attrs := get_kwargs (cmd_ref self) in
  ret (mkClickCommand (command_name self) attrs func).

(** ** Device types and their command registries *)

(** A value of a class namespace. *)
Inductive NsVal : Type :=
  | NsData (v : pyval)
      (* not callable *)
  | NsCallable (call : Callable) (_device_group_command : option Command).
      (* a callable and its [_device_group_command] attribute, if any *)

(** A class: a device type, created by [DeviceGroupMeta.__new__] from its
    name, bases and namespace, or a class outside the framework. *)
Inductive PyClass : Type :=
  | DeviceType (cname : string) (bases : list PyClass)
               (namespace : list (string * NsVal))
  | PlainType (cname : string) (namespace : list (string * NsVal)).

(** [Command.__call__(func)]: the value bound in the class namespace is the
    guard around [func], carrying the descriptor. *)
Definition Command_call `{DeviceImpl} (self : Command) : NsVal :=
  NsCallable (_autodetect_model_if_needed (cmd_ref self) (fn_body (func self)))
             (Some self).

(** [commands.update(other)] *)
Definition dict_update {V : Type} (commands other : gmap string V) : gmap string V :=
  other ∪ commands.

(** The body of the loop of [_get_commands_for_namespace]: values that are
    not callable, or carry no [_device_group_command], are skipped. *)
Definition namespace_step `{PyBuiltins} (commands : gmap string Command)
    (item : string * NsVal) : gmap string Command :=
  match snd item with
  | NsData _ => commands
  | NsCallable _ None => commands
  | NsCallable _ (Some device_group_command) =>
      <[command_name device_group_command := device_group_command]> commands
  end.

(** [_get_commands_for_namespace(namespace)] *)
Definition _get_commands_for_namespace `{PyBuiltins}
    (namespace : list (string * NsVal)) : gmap string Command :=
  fold_left namespace_step namespace ∅.

(** The attribute [_device_group_commands] of a class, as
    [DeviceGroupMeta.__new__] computes it; [None] when the class has none. *)
Fixpoint _device_group_commands `{PyBuiltins} (cls : PyClass)
    : option (gmap string Command) :=
  match cls with
  | PlainType _ _ => None
  | DeviceType _ bases namespace =>
      (* 1. Go through base classes for commands *)
      let commands :=
        fold_left
          (fun commands base =>
             dict_update commands (default ∅ (_device_group_commands base)))
          bases ∅ in
      (* 2. Add commands from the current class *)
      Some (dict_update commands (_get_commands_for_namespace namespace))
  end.

Definition class_namespace (cls : PyClass) : list (string * NsVal) :=
  match cls with
  | DeviceType _ _ namespace => namespace
  | PlainType _ namespace => namespace
  end.

Definition class_name (cls : PyClass) : string :=
  match cls with
  | DeviceType cname _ _ => cname
  | PlainType cname _ => cname
  end.

(** *** Method resolution order

    Python looks an attribute up along the linearization of the class (C3):
    the class, then the merge of the linearizations of its bases and of the
    list of bases.  A class is identified by its name; [object] is left
    out, since it binds no method of a command. *)

(** [name] occurs in the tail of [l]. *)
Definition in_tail (name : string) (l : list PyClass) : bool :=
  match l with
  | [] => false
  | _ :: tail => existsb (fun c => String.eqb (class_name c) name) tail
  end.

(** A head is good when it is in the tail of none of the lists. *)
Definition good_head (lists : list (list PyClass)) (c : PyClass) : bool :=
  forallb (fun l => negb (in_tail (class_name c) l)) lists.

Definition heads (lists : list (list PyClass)) : list PyClass :=
  omap head lists.

(** Remove [name] where it is the head. *)
Definition drop_head (name : string) (l : list PyClass) : list PyClass :=
  match l with
  | c :: tail => if String.eqb (class_name c) name then tail else l
  | [] => []
  end.

Definition nonempty (l : list PyClass) : bool :=
  match l with [] => false | _ :: _ => true end.

(** The merge of C3: take the first good head, remove it from the lists,
    go on; without a good head there is no linearization.  Each step
    removes a class, so [fuel] above the total length is enough. *)
Fixpoint c3_merge_steps (fuel : nat) (lists : list (list PyClass))
    : option (list PyClass) :=
  match List.filter nonempty lists with
  | [] => Some []
  | lists =>
      match fuel with
      | O => None
      | S fuel =>
          match List.find (good_head lists) (heads lists) with
          | None => None
          | Some c =>
              match c3_merge_steps fuel (List.map (drop_head (class_name c)) lists) with
              | None => None
              | Some rest => Some (c :: rest)
              end
          end
      end
  end.

Definition c3_merge (lists : list (list PyClass)) : option (list PyClass) :=
  c3_merge_steps (S (length (concat lists))) lists.

(** [Some l] when every element is [Some]. *)
Fixpoint all_some {A : Type} (l : list (option A)) : option (list A) :=
  match l with
  | [] => Some []
  | None :: _ => None
  | Some a :: l' =>
      match all_some l' with
      | None => None
      | Some r => Some (a :: r)
      end
  end.

(** [cls.__mro__] without [object]; [None] when the bases have no consistent
    order, in which case Python refuses to create the class. *)
Fixpoint mro (cls : PyClass) : option (list PyClass) :=
  match cls with
  | PlainType _ _ => Some [cls]
  | DeviceType _ bases _ =>
      match all_some (List.map mro bases) with
      | None => None
      | Some linearizations =>
          match c3_merge (linearizations ++ [bases]) with
          | None => None
          | Some rest => Some (cls :: rest)
          end
      end
  end.

(** The first binding of [attr] in the namespaces of [classes]. *)
Fixpoint mro_lookup (classes : list PyClass) (attr : string) : option NsVal :=
  match classes with
  | [] => None
  | c :: classes' =>
      match assoc attr (class_namespace c) with
      | Some v => Some v
      | None => mro_lookup classes' attr
      end
  end.

(** The class namespace, then the bases with their ancestors from left to
    right. *)
Fixpoint class_getattr_depth_first (cls : PyClass) (attr : string) : option NsVal :=
  match cls with
  | PlainType _ namespace => assoc attr namespace
  | DeviceType _ bases namespace =>
      match assoc attr namespace with
      | Some v => Some v
      | None =>
          (fix lookup_bases (bs : list PyClass) : option NsVal :=
             match bs with
             | [] => None
             | b :: bs' =>
                 match class_getattr_depth_first b attr with
                 | Some v => Some v
                 | None => lookup_bases bs'
                 end
             end) bases
      end
  end.

(** Lookup of a method on an instance of [cls], as [getattr(owner, name)]
    finds it in the class: the first binding along the method resolution
    order.  A namespace is that of the class body; the two attributes the
    metaclass adds to every device type ([_device_group_commands] and
    [get_device_group]) are not in it, so the lookup stands for names other
    than these two.  Where the hierarchy has no linearization (Python does
    not create such a class), or where the linearization misses a binding
    because two classes share a name, the search is depth first. *)
Definition class_getattr (cls : PyClass) (attr : string) : option NsVal :=
  match mro cls with
  | Some classes =>
      match mro_lookup classes attr with
      | Some v => Some v
      | None => class_getattr_depth_first cls attr
      end
  | None => class_getattr_depth_first cls attr
  end.

(** [Command.call(owner, *args, **kwargs)]; [owner] is the device of the
    world, an instance of [owner_cls]. *)
Definition call (self : Command) (owner_cls : PyClass) : Callable :=
  fun args kwargs =>
    match class_getattr owner_cls (__name__ (func self)) with
    | Some (NsCallable method _) => method args kwargs
    | Some (NsData _) => raise (TypeError "object is not callable")
    | None => raise (AttributeError (__name__ (func self)))
    end.

(** ** The command group *)

(** [DeviceGroup]: the fields this module reads. *)
Record DeviceGroup : Type := mkDeviceGroup {
  commands : gmap string Command;
  device_class : PyClass
}.

(** [DeviceGroup.__init__(device_class)] *)
Definition DeviceGroup_init `{PyBuiltins} (device_class : PyClass) : exc + DeviceGroup :=
  match _device_group_commands device_class with
  | None =>
      inl (RuntimeError ("Class {} doesn't use DeviceGroupMeta meta class."
                         ++ " It can't be used with DeviceGroup."))
  | Some commands => inr (mkDeviceGroup commands device_class)
  end.

(** [self.device_pass = click.make_pass_decorator(device_class)]: the
    decorated callable receives the device instance of the invocation, which
    is the device of the world. *)
Definition device_pass (f : Callable) : Callable := f.

(** [DeviceGroup.command_callback(miio_command, miio_device, ...)] *)
Definition command_callback (self : DeviceGroup) (miio_command : Command) : Callable :=
  call miio_command (device_class self).

(** [DeviceGroup.get_command(ctx, cmd_name)] *)
Definition get_command `{PyBuiltins} (self : DeviceGroup) (ctx : Context)
    (cmd_name : string) : M ClickCommand :=
  match commands self !! cmd_name with
  | None => raise (UsageError ("Unknown command (" ++ cmd_name ++ ")"))
  | Some cmd => wrap cmd ctx (device_pass (command_callback self cmd))
  end.

(** The order of Python strings. *)
Definition str_le (s1 s2 : string) : Prop := String.leb s1 s2 = true.
Definition str_lt (s1 s2 : string) : Prop := String.ltb s1 s2 = true.

#[global] Instance str_le_dec : RelDecision str_le.
Proof. intros s1 s2. unfold str_le. apply _. Defined.

(** [sorted(names)] *)
Definition sorted (names : list string) : list string := merge_sort str_le names.

(** [DeviceGroup.list_commands(ctx)] *)
Definition list_commands (self : DeviceGroup) (ctx : Context) : list string :=
  sorted (map_to_list (commands self)).*1.

(** Running a resolved click command: click calls its callback. *)
Definition invoke (cmd : ClickCommand) : Callable := callback cmd.

(** ** Reference built-ins

    Executable instances of [PyBuiltins] and [DeviceImpl] for running the
    definitions on concrete inputs.  The theorems below hold for every
    instance; only the examples use this one. *)

Module Reference.

Definition dquote : ascii := "034"%char.
Definition backslash : ascii := "092"%char.

(** Lower-casing of the ASCII letters; other characters are kept. *)
Definition lower_char (c : ascii) : ascii :=
  let n := nat_of_ascii c in
  if (65 <=? n)%nat && (n <=? 90)%nat then ascii_of_nat (n + 32) else c.

Fixpoint lower (s : string) : string :=
  match s with
  | EmptyString => EmptyString
  | String c s' => String (lower_char c) (lower s')
  end.

(** [c.isspace()] on the characters below 256. *)
Definition is_space (c : ascii) : bool :=
  let n := nat_of_ascii c in
  ((9 <=? n)%nat && (n <=? 13)%nat) || ((28 <=? n)%nat && (n <=? 32)%nat)
  || (n =? 133)%nat || (n =? 160)%nat.

Fixpoint lstrip (s : string) : string :=
  match s with
  | EmptyString => EmptyString
  | String c s' => if is_space c then lstrip s' else s
  end.

Fixpoint rstrip (s : string) : string :=
  match s with
  | EmptyString => EmptyString
  | String c s' =>
      match rstrip s' with
      | EmptyString => if is_space c then EmptyString else String c EmptyString
      | r => String c r
      end
  end.

Definition strip (s : string) : string := rstrip (lstrip s).

Definition str_of_Z (n : Z) : string :=
  match n with
  | Z0 => "0"
  | Zpos p => str_of_nat (Pos.to_nat p)
  | Zneg p => "-" ++ str_of_nat (Pos.to_nat p)
  end.

(** [str(v)] for the scalar values. *)
Definition py_str (v : pyval) : exc + string :=
  match v with
  | PyNone => inr "None"
  | PyBool true => inr "True"
  | PyBool false => inr "False"
  | PyInt n => inr (str_of_Z n)
  | PyStr s => inr s
  | _ => inl (OtherException "NotImplementedError" [])
  end.

(** [template.format( **kwargs )] for templates whose replacement fields
    are plain names, with the escapes [{{] and [}}]; [field] is [None]
    outside a field and the name read so far inside one. *)
Fixpoint format_from (field : option string) (s : string) (kwargs : Kwargs)
    : exc + string :=
  let literal (c : ascii) (r : exc + string) : exc + string :=
    match r with inl e => inl e | inr r => inr (String c r) end in
  match s, field with
  | EmptyString, None => inr EmptyString
  | EmptyString, Some _ => inl (OtherException "ValueError" [])
  | String c s', None =>
      if Ascii.eqb c "{"%char then
        match s' with
        | String c' s'' =>
            if Ascii.eqb c' "{"%char then literal c (format_from None s'' kwargs)
            else format_from (Some EmptyString) s' kwargs
        | EmptyString => inl (OtherException "ValueError" [])
        end
      else if Ascii.eqb c "}"%char then
        match s' with
        | String c' s'' =>
            if Ascii.eqb c' "}"%char then literal c (format_from None s'' kwargs)
            else inl (OtherException "ValueError" [])
        | EmptyString => inl (OtherException "ValueError" [])
        end
      else literal c (format_from None s' kwargs)
  | String c s', Some key =>
      if Ascii.eqb c "}"%char then
        match kwargs !! key with
        | None => inl (KeyError key)
        | Some v =>
            match py_str v, format_from None s' kwargs with
            | inr sv, inr r => inr (sv ++ r)
            | inl e, _ => inl e
            | _, inl e => inl e
            end
        end
      else format_from (Some (key ++ String c EmptyString)) s' kwargs
  end.

Definition hex_digit (n : nat) : ascii :=
  if (n <? 10)%nat then ascii_of_nat (48 + n) else ascii_of_nat (87 + n).

Definition json_escape_char (c : ascii) : string :=
  let n := nat_of_ascii c in
  if Ascii.eqb c dquote then String backslash (String dquote EmptyString)
  else if Ascii.eqb c backslash then String backslash (String backslash EmptyString)
  else if (n =? 10)%nat then String backslash "n"
  else if (n =? 13)%nat then String backslash "r"
  else if (n =? 9)%nat then String backslash "t"
  else if (n =? 8)%nat then String backslash "b"
  else if (n =? 12)%nat then String backslash "f"
  else if (n <? 32)%nat || (126 <? n)%nat
  then String backslash
         ("u00" ++ String (hex_digit (n / 16)) (String (hex_digit (n mod 16)) EmptyString))
  else String c EmptyString.

Fixpoint json_escape (s : string) : string :=
  match s with
  | EmptyString => EmptyString
  | String c s' => json_escape_char c ++ json_escape s'
  end.

Definition json_str (s : string) : string :=
  String dquote (json_escape s ++ String dquote EmptyString).

Fixpoint spaces (n : nat) : string :=
  match n with O => EmptyString | S n' => String " "%char (spaces n') end.

(** Separator before an item at nesting [level]. *)
Definition json_newline (indent : option nat) (level : nat) : string :=
  match indent with
  | None => EmptyString
  | Some k => String "010"%char (spaces (k * level))
  end.

Definition json_item_sep (indent : option nat) (level : nat) : string :=
  match indent with
  | None => ", "
  | Some _ => "," ++ json_newline indent level
  end.

(** [json.dumps(v, indent=indent)] at nesting [level]. *)
Fixpoint dumps_at (indent : option nat) (level : nat) (v : pyval) : exc + string :=
  match v with
  | PyNone => inr "null"
  | PyBool true => inr "true"
  | PyBool false => inr "false"
  | PyInt n => inr (str_of_Z n)
  | PyStr s => inr (json_str s)
  | PyList [] => inr "[]"
  | PyList (x :: xs) =>
      let fix items (l : list pyval) : exc + string :=
        match l with
        | [] => inr EmptyString
        | y :: l' =>
            match dumps_at indent (S level) y, items l' with
            | inr sy, inr r => inr (json_item_sep indent (S level) ++ sy ++ r)
            | inl e, _ => inl e
            | _, inl e => inl e
            end
        end in
      match dumps_at indent (S level) x, items xs with
      | inr sx, inr r =>
          inr ("[" ++ json_newline indent (S level) ++ sx ++ r
                   ++ json_newline indent level ++ "]")
      | inl e, _ => inl e
      | _, inl e => inl e
      end
  | PyDict [] => inr "{}"
  | PyDict ((k, x) :: kvs) =>
      let fix items (l : list (string * pyval)) : exc + string :=
        match l with
        | [] => inr EmptyString
        | (ky, y) :: l' =>
            match dumps_at indent (S level) y, items l' with
            | inr sy, inr r =>
                inr (json_item_sep indent (S level) ++ json_str ky ++ ": " ++ sy ++ r)
            | inl e, _ => inl e
            | _, inl e => inl e
            end
        end in
      match dumps_at indent (S level) x, items kvs with
      | inr sx, inr r =>
          inr ("{" ++ json_newline indent (S level) ++ json_str k ++ ": " ++ sx ++ r
                   ++ json_newline indent level ++ "}")
      | inl e, _ => inl e
      | _, inl e => inl e
      end
  | PyMethod _ => inl (TypeError "Object of type method is not JSON serializable")
  | PyObj _ _ => inl (TypeError "Object is not JSON serializable")
  end.

#[export] Instance builtins : PyBuiltins := {|
  str_lower := lower;
  str_strip := strip;
  str_format := format_from None;
  json_dumps := fun indent v => dumps_at indent 0 v
|}.

(** A device whose [_fetch_info] fills both caches and returns the info. *)
Definition device_info : pyval := PyDict [("model", PyStr "demo.device.v1")].

#[export] Instance device_impl : DeviceImpl := {|
  fetch_info_body := fun w =>
    (Ok device_info,
     mkWorld (mkDevice (Some "demo.device.v1") (Some device_info))
             (descr_kwargs w) (trace w))
|}.

(** A fresh invocation: nothing cached, no descriptor options, no events. *)
Definition fresh_world : World := mkWorld (mkDevice None None) ∅ [].

End Reference.

(** ** What a class declares *)

(** The namespace binds some attribute to a callable tagged with descriptor
    [d], whose command name is [X]. *)
Definition declares `{PyBuiltins} (namespace : list (string * NsVal))
    (X : string) (d : Command) : Prop :=
  ∃ attr call, (attr, NsCallable call (Some d)) ∈ namespace ∧ command_name d = X.

(** [d] is the descriptor the namespace declares for [X]: the last one in
    the order of the class body, should several carry that name. *)
Definition declares_last `{PyBuiltins} (namespace : list (string * NsVal))
    (X : string) (d : Command) : Prop :=
  ∃ before attr call after,
    namespace = (before ++ (attr, NsCallable call (Some d)) :: after)%list
    ∧ command_name d = X
    ∧ ∀ d', ¬ declares after X d'.

(** [A] is the device type [D] or one of its ancestors, through bases that
    are device types. *)
Inductive device_ancestor : PyClass → PyClass → Prop :=
  | ancestor_self cname bases namespace :
      device_ancestor (DeviceType cname bases namespace)
                      (DeviceType cname bases namespace)
  | ancestor_base A B cname bases namespace :
      B ∈ bases →
      device_ancestor A B →
      device_ancestor A (DeviceType cname bases namespace).

(** The callback of a successfully resolved command. *)
Definition resolved_callback (r : outcome ClickCommand * World) : option Callable :=
  match r with
  | (Ok cmd, _) => Some (callback cmd)
  | (Raise _, _) => None
  end.

(** ** Concrete inputs *)

Module Examples.
Import Reference.

Definition token32 : string := "aaaaaaaaaaaaaaaaaaaaaaaaaaaaaaaa".
Definition token31 : string := "aaaaaaaaaaaaaaaaaaaaaaaaaaaaaaa".

(** A decorator that leaves a mark and calls through. *)
Definition marking (tag : string) : Decorator :=
  fun func args kwargs => let* _ := log (EvNote tag) in func args kwargs.

Definition d1 : Decorator := marking "d1".
Definition d2 : Decorator := marking "d2".

(** [def Status(self): ...] returning 1. *)
Definition status_fn : PyFunction :=
  mkFunction "Status" PyNone
    (fun _ _ => let* _ := log (EvNote "body") in ret (PyInt 1)).

(** [@command(d1, d2)] on [Status]. *)
Definition status_cmd : Command := command 1%positive [d1; d2] None None status_fn.


Definition lamp_world : World := declare_kwargs status_cmd ∅ fresh_world.


Definition lamp_ctx : Context := [ObjDevice; ObjNone].

(** [@command(default_output=json_output(pretty=True))] on [Status]. *)
Definition pretty_cmd : Command :=
  command 3%positive [] None (Some (json_output true)) status_fn.

(** Resolve [name] on the group of [cls] and call the result once without
    arguments. *)
Definition resolve_and_call (cls : PyClass) (ctx : Context) (name : string)
    (w : World) : option (outcome pyval * World) :=
  match DeviceGroup_init cls with
  | inl _ => None
  | inr group =>
      match get_command group ctx name w with
      | (Ok cmd, w') => Some (invoke cmd [] ∅ w')
      | (Raise _, _) => None
      end
  end.


(** [@command(skip_autodetect=True)] on [info]. *)
Definition info_fn : PyFunction :=
  mkFunction "info" PyNone
    (fun _ _ => let* _ := log (EvNote "info body") in ret (PyStr "ok")).

Definition info_cmd : Command := command 2%positive [] None None info_fn.

Definition Plug : PyClass := DeviceType "Plug" [] [("info", Command_call info_cmd)].

Definition plug_world : World :=
  declare_kwargs info_cmd (<["skip_autodetect" := PyBool true]> ∅) fresh_world.

(** A base type and a derived type that both declare [status]. *)
Definition base_status : Command :=
  command 10%positive [] (Some "status") None
    (mkFunction "status" (PyStr "base") (fun _ _ => ret (PyStr "base status"))).
Definition base_reboot : Command :=
  command 11%positive [] None None
    (mkFunction "Reboot" PyNone (fun _ _ => ret PyNone)).
Definition derived_status : Command :=
  command 12%positive [] (Some "status") None
    (mkFunction "status" (PyStr "derived") (fun _ _ => ret (PyStr "derived status"))).
Definition derived_info : Command :=
  command 13%positive [] None None
    (mkFunction "info" PyNone (fun _ _ => ret PyNone)).

Definition Base : PyClass :=
  DeviceType "Base" [PlainType "object" []]
    [("status", Command_call base_status);
     ("timeout", NsData (PyInt 5));
     ("Reboot", Command_call base_reboot)].

Definition Derived : PyClass :=
  DeviceType "Derived" [Base]
    [("status", Command_call derived_status);
     ("helper", NsCallable (fun _ _ => ret PyNone) None);
     ("info", Command_call derived_info)].

Definition derived_group : DeviceGroup :=
  mkDeviceGroup (default ∅ (_device_group_commands Derived)) Derived.

(** A result object with a ready-made display string. *)
Definition displayable : pyval :=
  PyObj "DeviceStatus" [("__cli_output__", PyStr "  ready-made  ")].

Definition returns_displayable : Callable := fun _ _ => ret displayable.

(** A callable post-message spec. *)
Definition custom_fmt : MsgFmt := FmtCall (fun _ => ret "custom").

(** A command failing with [DeviceError({"code": 7})]. *)
Definition error_payload : pyval := PyDict [("code", PyInt 7)].
Definition failing : Callable :=
  fun _ _ => raise (DeviceError [error_payload; PyStr "device said no"]).

Definition returns_one : Callable := fun _ _ => ret (PyInt 1).

(** Two invocation contexts: with and without an output override. *)
Definition ctx_json : Context :=
  [ObjDevice; ObjGlobal (mkGlobalContextObject 0 (Some (json_output false)))].
Definition ctx_plain : Context :=
  [ObjDevice; ObjGlobal (mkGlobalContextObject 0 None)].

End Examples.

(** ** The exception boundary *)

(** The logging collaborator: [_LOGGER.exception] records the exception and
    returns; it does not raise. *)
Class Logging : Type := {
  logger_exception : exc → World → World
}.

(** What a call may raise: an exception below [Exception], which is what
    [exc] holds, or one of the two [BaseException]s beside it.  click ends a
    standalone [main] with [SystemExit]. *)
Inductive raised : Type :=
  | RaisedException (ex : exc)
  | SystemExit (code : Z)
  | KeyboardInterrupt.

(** [self.main], the entry point of click, and [__call__] around it. *)
Definition Main : Type :=
  list pyval → Kwargs → World → (raised + pyval) * World.

(** [ExceptionHandlerGroup.__call__( *args, **kwargs )] *)
Definition ExceptionHandlerGroup_call `{Logging} (main : Main) : Main :=
  fun args kwargs w =>
    match main args kwargs w with
    | (inr result, w') => (inr result, w')
    | (inl (RaisedException ex), w') => (inr PyNone, logger_exception ex w')
    | (inl other, w') => (inl other, w')
    end.

(** ** Enum-valued options *)

(** A member of an [Enum] class. *)
Record EnumMember : Type := mkEnumMember {
  member_name : string;
  member_value : pyval
}.

(** An [Enum] class: its members in the order of definition, which is what
    iterating the class yields, and the names that are aliases of a member. *)
Record EnumCls : Type := mkEnumCls {
  enum_members : list EnumMember;
  enum_aliases : list string
}.

(** The names of [enumcls.__members__]: members and aliases. *)
Definition __members__ (enumcls : EnumCls) : list string :=
  (member_name <$> enum_members enumcls) ++ enum_aliases enumcls.

(** [EnumType], a [click.Choice]. *)
Record EnumType : Type := mkEnumType {
  _enumcls : EnumCls;
  _casesensitive : bool;
  choices : list string
}.

(** [EnumType.__init__(enumcls, casesensitive)]; the choices handed to
    [click.Choice] are [list(sorted(set(choices)))]. *)
Definition EnumType_init `{PyBuiltins} (enumcls : EnumCls) (casesensitive : bool)
    : EnumType :=
  let choices := __members__ enumcls in
  let choices := if negb casesensitive then str_lower <$> choices else choices in
  mkEnumType enumcls casesensitive (sorted (remove_dups choices)).

(** The text of the usage error of [click.Choice] for a value that is not a
    choice. *)
Class ClickChoice : Type := {
  invalid_choice_message : string → list string → string
}.

(** [click.Choice.convert] for a case-sensitive choice without token
    normalisation, which is how [EnumType] builds it: a value among the
    choices is returned, any other fails. *)
Definition Choice_convert `{ClickChoice} (choices : list string) (value : string)
    : exc + string :=
  if bool_decide (value ∈ choices) then inr value
  else inl (BadParameter (invalid_choice_message value choices)).

(** [next(_ for _ in enumcls if test(_))] *)
Definition next_member (test : EnumMember → bool) (enumcls : EnumCls)
    : exc + EnumMember :=
  match List.find test (enum_members enumcls) with
  | Some member => inr member
  | None => inl (OtherException "StopIteration" [])
  end.

(** [EnumType.convert(value, param, ctx)]; [param] and [ctx] only reach the
    error message of [click.Choice]. *)
Definition EnumType_convert `{PyBuiltins} `{ClickChoice} (self : EnumType)
    (value : string) : exc + EnumMember :=
  let value := if negb (_casesensitive self) then str_lower value else value in
  match Choice_convert (choices self) value with
  | inl e => inl e
  | inr value =>
      if negb (_casesensitive self)
      then next_member
             (fun m => String.eqb (str_lower (member_name m)) (str_lower value))
             (_enumcls self)
      else next_member (fun m => String.eqb (member_name m) value) (_enumcls self)
  end.

(** ** Further notions for the properties *)

(** No context of the chain holds a [GlobalContextObject]. *)
Definition no_global (ctx : Context) : Prop :=
  ∀ obj gco, obj ∈ ctx → obj ≠ ObjGlobal gco.

(** Every tagged callable of the namespace is bound under the name of the
    function its descriptor decorates, as [@command(...)] above a [def]
    binds it. *)
Definition bound_by_def (namespace : list (string * NsVal)) : Prop :=
  ∀ attr call d,
    (attr, NsCallable call (Some d)) ∈ namespace → attr = __name__ (func d).



(** ** Further concrete inputs *)

Module Cases.
Import Reference.

#[export] Instance logging : Logging := {|
  logger_exception := fun ex w =>
    mkWorld (device w) (descr_kwargs w) (trace w ++ [EvNote "logged exception"])
|}.

#[export] Instance click_choice : ClickChoice := {|
  invalid_choice_message := fun value choices => "invalid choice: " ++ value
|}.

(** [class Speed(Enum): Low = 1; HIGH = 2; high = 3; Fast = 2]: [Fast] is an
    alias of [HIGH]. *)
Definition Speed : EnumCls :=
  mkEnumCls [mkEnumMember "Low" (PyInt 1); mkEnumMember "HIGH" (PyInt 2);
             mkEnumMember "high" (PyInt 3)]
            ["Fast"].

(** Two unrelated device types that both declare [status], and a type that
    inherits from both without declaring it. *)
Definition left_status : Command :=
  command 20%positive [] None None
    (mkFunction "status" (PyStr "left") (fun _ _ => ret (PyStr "left status"))).
Definition right_status : Command :=
  command 21%positive [] None None
    (mkFunction "status" (PyStr "right") (fun _ _ => ret (PyStr "right status"))).

Definition Left : PyClass := DeviceType "Left" [] [("status", Command_call left_status)].
Definition Right : PyClass := DeviceType "Right" [] [("status", Command_call right_status)].
Definition Both : PyClass := DeviceType "Both" [Left; Right] [("timeout", NsData (PyInt 5))].

(** A subtype that redefines [status] without [@command]. *)
Definition plain_status : Callable := fun _ _ => ret (PyStr "overridden").
Definition Override : PyClass :=
  DeviceType "Override" [Left] [("status", NsCallable plain_status None)].

(** A command whose body leaves everything as it is. *)
Definition quiet : Callable := fun _ _ => ret (PyStr "done").

(** A device whose info-fetch fails. *)
Definition unreachable_device : DeviceImpl := {|
  fetch_info_body := raise (OtherException "DeviceException" [PyStr "no response"])
|}.

(** Results with structured views. *)
Definition with_json_and_data : pyval :=
  PyObj "Status" [("__json__", PyMethod (PyDict [("power", PyStr "on")]));
                  ("data", PyDict [("raw", PyInt 1)])].
Definition with_data : pyval := PyObj "Status" [("data", PyDict [("raw", PyInt 1)])].

Definition returns (v : pyval) : Callable := fun _ _ => ret v.

(** A [main] whose command fails with a device error after writing a line,
    and a [main] that ends as a standalone run of click does. *)
Definition failing_main : Main :=
  fun _ _ w =>
    (inl (RaisedException (DeviceError [PyDict [("code", PyInt 7)]])),
     snd (echo (PyStr "working") w)).
Definition standalone_main : Main :=
  fun _ _ w => (inl (SystemExit 0), snd (echo (PyStr "done") w)).

(** A device type without commands, and a type with three bases of which
    the last registers nothing. *)
Definition Idle : PyClass := DeviceType "Idle" [] [("timeout", NsData (PyInt 5))].
Definition Three : PyClass := DeviceType "Three" [Left; Right; Idle] [].

(** A class outside the framework that tags a method as a command, and a
    device type that inherits from it. *)
Definition ping_cmd : Command :=
  command 30%positive [] None None
    (mkFunction "ping" PyNone (fun _ _ => ret (PyStr "pong"))).
Definition gadget_status : Command :=
  command 31%positive [] None None
    (mkFunction "status" PyNone (fun _ _ => ret (PyStr "gadget status"))).
Definition Mixin : PyClass := PlainType "Mixin" [("ping", Command_call ping_cmd)].
Definition Gadget : PyClass :=
  DeviceType "Gadget" [Mixin] [("status", Command_call gadget_status)].
Definition gadget_group : DeviceGroup :=
  mkDeviceGroup (default ∅ (_device_group_commands Gadget)) Gadget.

(** A command that raises a device error without arguments. *)
Definition bare_failure : Callable := fun _ _ => raise (DeviceError []).

(** A command that raises a device error whose payload is not JSON. *)
Definition opaque_failure : Callable :=
  fun _ _ => raise (DeviceError [PyObj "Response" []]).

Definition plug_group : DeviceGroup :=
  mkDeviceGroup (default ∅ (_device_group_commands Examples.Plug)) Examples.Plug.

(** A command with an effect on the device. *)
Definition sets_model : Callable :=
  fun _ _ w => (Ok (PyInt 1),
                mkWorld (mkDevice (Some "demo.device.v1") (_info (device w)))
                        (descr_kwargs w) (trace w ++ [EvNote "model set"])).

End Cases.

(** * Properties *)

(** ** Token validation *)

(** C9: a token of 32 characters is returned unchanged; a token of any other
    length is refused with the usage error
    ["Token length != 32 chars: <actual length>"], which states the expected
    length 32 and the actual length. *)
Theorem validate_token_length {C P : Type} (ctx : C) (param : P) (value : string) :
  (String.length value = 32 →
     validate_token ctx param (Some value) = inr (Some value))
  ∧ (String.length value ≠ 32 →
     validate_token ctx param (Some value)
     = inl (BadParameter ("Token length != 32 chars: "
                          ++ str_of_nat (String.length value)))).
Proof.
  unfold validate_token. split; intros Hlen.
  - rewrite Hlen. reflexivity.
  - destruct (Nat.eqb_spec (String.length value) 32) as [Heq | Hne].
    + contradiction.
    + reflexivity.
Qed.

Lemma validate_token_length_witness :
  validate_token tt tt (Some Examples.token32) = inr (Some Examples.token32)
  ∧ validate_token tt tt (Some Examples.token31)
    = inl (BadParameter "Token length != 32 chars: 31").
Proof.
  split.
  - apply (proj1 (validate_token_length tt tt Examples.token32)). reflexivity.
  - apply (proj2 (validate_token_length tt tt Examples.token31)).
    vm_compute. discriminate.
Defined.

(** An absent token is passed through. *)
Lemma validate_token_None {C P : Type} (ctx : C) (param : P) :
  validate_token ctx param None = inr None.
Proof. reflexivity. Qed.

(** ** The order of strings *)

Lemma ascii_compare_refl (c : ascii) : Ascii.compare c c = Eq.
Proof. unfold Ascii.compare. apply N.compare_refl. Qed.

Lemma ascii_compare_lt_trans (a b c : ascii) :
  Ascii.compare a b = Lt → Ascii.compare b c = Lt → Ascii.compare a c = Lt.
Proof.
  unfold Ascii.compare. rewrite !N.compare_lt_iff. apply N.lt_trans.
Qed.

Lemma string_compare_le_trans (s1 s2 s3 : string) :
  String.compare s1 s2 ≠ Gt → String.compare s2 s3 ≠ Gt → String.compare s1 s3 ≠ Gt.
Proof.
  revert s2 s3. induction s1 as [| a s1 IH]; intros [| b s2] [| c s3]; simpl;
    try congruence.
  destruct (Ascii.compare a b) eqn:Hab; try congruence;
    destruct (Ascii.compare b c) eqn:Hbc; try congruence; intros H12 H23.
  - apply Ascii.compare_eq_iff in Hab, Hbc. subst.
    rewrite ascii_compare_refl. eauto.
  - apply Ascii.compare_eq_iff in Hab. subst. rewrite Hbc. discriminate.
  - apply Ascii.compare_eq_iff in Hbc. subst. rewrite Hab. discriminate.
  - rewrite (ascii_compare_lt_trans a b c Hab Hbc). discriminate.
Qed.

Lemma str_le_compare (s1 s2 : string) : str_le s1 s2 ↔ String.compare s1 s2 ≠ Gt.
Proof.
  unfold str_le, String.leb. destruct (String.compare s1 s2); split; congruence.
Qed.

#[global] Instance str_le_trans : Transitive str_le.
Proof.
  intros s1 s2 s3. rewrite !str_le_compare. apply string_compare_le_trans.
Qed.

#[global] Instance str_le_total : Total str_le.
Proof. intros s1 s2. apply String.leb_total. Qed.

#[global] Instance str_le_antisymm : AntiSymm (=) str_le.
Proof. intros s1 s2. apply String.leb_antisym. Qed.

Lemma str_lt_le_ne (s1 s2 : string) : str_lt s1 s2 ↔ str_le s1 s2 ∧ s1 ≠ s2.
Proof.
  unfold str_lt, str_le, String.ltb, String.leb.
  destruct (String.compare s1 s2) eqn:Hcmp; split; try intuition congruence.
  - apply String.compare_eq_iff in Hcmp. intros [_ Hne]. contradiction.
  - intros _. split; [reflexivity |]. intros ->.
    assert (Hrefl : String.compare s2 s2 = Eq).
    { clear Hcmp. induction s2 as [| c s IH]; simpl; [reflexivity |].
      rewrite ascii_compare_refl. exact IH. }
    congruence.
Qed.

(** A sorted list without repetition is strictly increasing. *)
Lemma StronglySorted_strict (l : list string) :
  StronglySorted str_le l → NoDup l → StronglySorted str_lt l.
Proof.
  induction 1 as [| x l Hsorted IH Hall]; intros Hnodup; constructor.
  - apply IH. by apply NoDup_cons_1_2 in Hnodup.
  - apply NoDup_cons in Hnodup as [Hnotin _].
    rewrite Forall_forall in Hall. apply Forall_forall. intros y Hy.
    apply str_lt_le_ne. split; [by apply Hall |].
    intros ->. contradiction.
Qed.

Lemma sorted_strict (l : list string) :
  NoDup l → StronglySorted str_lt (sorted l) ∧ sorted l ≡ₚ l.
Proof.
  intros Hnodup. split.
  - apply StronglySorted_strict.
    + apply StronglySorted_merge_sort; apply _.
    + unfold sorted. by rewrite merge_sort_Permutation.
  - apply merge_sort_Permutation.
Qed.

(** ** Registry construction *)

Section Registry.
Context `{PyBuiltins}.

Lemma declares_nil X d : ¬ declares [] X d.
Proof. intros (attr & call & Hin & _). by apply elem_of_nil in Hin. Qed.

Lemma declares_cons item ns X d :
  declares (item :: ns) X d
  ↔ (∃ attr call, item = (attr, NsCallable call (Some d)) ∧ command_name d = X)
    ∨ declares ns X d.
Proof.
  unfold declares. split.
  - intros (attr & call & Hin & Hname). apply elem_of_cons in Hin as [<- | Hin].
    + left. eauto.
    + right. eauto.
  - intros [(attr & call & -> & Hname) | (attr & call & Hin & Hname)].
    + exists attr, call. split; [apply elem_of_cons; by left | done].
    + exists attr, call. split; [apply elem_of_cons; by right | done].
Qed.

Lemma declares_last_nil X d : ¬ declares_last [] X d.
Proof.
  intros (before & attr & call & after & Heq & _).
  by destruct before.
Qed.

Lemma declares_last_cons item ns X d :
  declares_last (item :: ns) X d
  ↔ declares_last ns X d
    ∨ ((∃ attr call, item = (attr, NsCallable call (Some d)))
       ∧ command_name d = X ∧ ∀ d', ¬ declares ns X d').
Proof.
  unfold declares_last. split.
  - intros (before & attr & call & after & Heq & Hname & Hlast).
    destruct before as [| item' before]; simpl in Heq; injection Heq as -> ->.
    + right. eauto.
    + left. exists before, attr, call, after. eauto.
  - intros [(before & attr & call & after & -> & Hname & Hlast)
           | ((attr & call & ->) & Hname & Hlast)].
    + exists (item :: before), attr, call, after. eauto.
    + exists [], attr, call, ns. eauto.
Qed.

Lemma declares_last_declares ns X d : declares_last ns X d → declares ns X d.
Proof.
  intros (before & attr & call & after & -> & Hname & _).
  exists attr, call. split; [| done].
  apply elem_of_app. right. apply elem_of_cons. by left.
Qed.

(** The loop over a namespace keeps, for each name, the last descriptor
    declared under it, and otherwise what the dict held before. *)
Lemma namespace_fold_lookup ns (acc : gmap string Command) X d :
  fold_left namespace_step ns acc !! X = Some d
  ↔ declares_last ns X d ∨ (acc !! X = Some d ∧ ∀ d', ¬ declares ns X d').
Proof.
  revert acc. induction ns as [| item ns IH]; intros acc; simpl.
  - split.
    + intros Hacc. right. split; [done |]. intros d'. apply declares_nil.
    + intros [Hlast | [Hacc _]]; [by apply declares_last_nil in Hlast | done].
  - rewrite IH, declares_last_cons. clear IH.
    destruct item as [attr [v | call [d0 |]]]; unfold namespace_step; simpl.
    + split.
      * intros [Hlast | [Hacc Hnone]]; [by left; left |].
        right. split; [done |]. intros d' Hd'.
        apply declares_cons in Hd' as [(? & ? & ? & _) | Hd']; [done |].
        by apply (Hnone d').
      * intros [[Hlast | ((? & ? & ?) & _)] | [Hacc Hnone]]; [by left | done |].
        right. split; [done |]. intros d' Hd'. apply (Hnone d').
        apply declares_cons. by right.
    + destruct (decide (command_name d0 = X)) as [Hname | Hname].
      * subst X. rewrite lookup_insert_eq. split.
        -- intros [Hlast | [Hd Hnone]]; [by left; left |].
           injection Hd as ->. left. right. eauto.
        -- intros [[Hlast | ((? & ? & Heq) & _ & Hnone)] | [_ Hnone]].
           ++ by left.
           ++ injection Heq as _ _ ->. by right.
           ++ exfalso. apply (Hnone d0). apply declares_cons. left. eauto.
      * rewrite lookup_insert_ne by done. split.
        -- intros [Hlast | [Hacc Hnone]]; [by left; left |].
           right. split; [done |]. intros d' Hd'.
           apply declares_cons in Hd' as [(? & ? & Heq & Hd') | Hd'].
           ++ injection Heq as _ _ ->. contradiction.
           ++ by apply (Hnone d').
        -- intros [[Hlast | ((? & ? & Heq) & Hd & _)] | [Hacc Hnone]].
           ++ by left.
           ++ injection Heq as _ _ ->. contradiction.
           ++ right. split; [done |]. intros d' Hd'. apply (Hnone d').
              apply declares_cons. by right.
    + split.
      * intros [Hlast | [Hacc Hnone]]; [by left; left |].
        right. split; [done |]. intros d' Hd'.
        apply declares_cons in Hd' as [(? & ? & ? & _) | Hd']; [done |].
        by apply (Hnone d').
      * intros [[Hlast | ((? & ? & ?) & _)] | [Hacc Hnone]]; [by left | done |].
        right. split; [done |]. intros d' Hd'. apply (Hnone d').
        apply declares_cons. by right.
Qed.

Lemma own_commands_lookup ns X d :
  _get_commands_for_namespace ns !! X = Some d ↔ declares_last ns X d.
Proof.
  unfold _get_commands_for_namespace. rewrite namespace_fold_lookup.
  rewrite lookup_empty. split; [| by left].
  intros [Hlast | [Hempty _]]; [done | discriminate].
Qed.

(** Whatever a namespace declares under a name, it has a last descriptor
    for that name. *)
Lemma declares_has_last ns X d : declares ns X d → ∃ d', declares_last ns X d'.
Proof.
  revert d. induction ns as [| item ns IH]; intros d Hd.
  - by apply declares_nil in Hd.
  - destruct (_get_commands_for_namespace ns !! X) as [d' |] eqn:Hlook.
    + exists d'. apply declares_last_cons. left. by apply own_commands_lookup.
    + assert (Hnone : ∀ d', ¬ declares ns X d').
      { intros d' Hd'. destruct (IH d' Hd') as [d'' Hlast].
        apply own_commands_lookup in Hlast. congruence. }
      apply declares_cons in Hd as [(attr & call & -> & Hname) | Hd].
      * exists d. apply declares_last_cons. right. eauto.
      * by apply Hnone in Hd.
Qed.

End Registry.

(** Induction on a class with the property available for its bases. *)
Lemma PyClass_bases_ind (P : PyClass → Prop) :
  (∀ cname namespace, P (PlainType cname namespace)) →
  (∀ cname bases namespace, Forall P bases → P (DeviceType cname bases namespace)) →
  ∀ cls, P cls.
Proof.
  intros Hplain Hdevice. fix IH 1. intros [cname bases namespace | cname namespace].
  - apply Hdevice. induction bases as [| base bases IHbases].
    + constructor.
    + constructor; [apply IH | exact IHbases].
  - apply Hplain.
Qed.

Section ClassRegistry.
Context `{PyBuiltins}.

(** The loop over the bases: a name ends up bound to what the dict held
    or to what some base contributes. *)
Lemma bases_fold_lookup_Some (f : PyClass → gmap string Command) bases acc Y d :
  fold_left (λ commands base, dict_update commands (f base)) bases acc !! Y = Some d →
  acc !! Y = Some d ∨ ∃ B, B ∈ bases ∧ f B !! Y = Some d.
Proof.
  revert acc. induction bases as [| base bases IH]; intros acc; simpl.
  - by left.
  - intros Hlook. apply IH in Hlook as [Hlook | (B & HB & Hlook)].
    + unfold dict_update in Hlook.
      apply lookup_union_Some_raw in Hlook as [Hbase | [_ Hacc]].
      * right. exists base. split; [apply elem_of_cons; by left | done].
      * by left.
    + right. exists B. split; [apply elem_of_cons; by right | done].
Qed.

Lemma bases_fold_is_Some (f : PyClass → gmap string Command) bases acc Y :
  is_Some (acc !! Y) ∨ (∃ B, B ∈ bases ∧ is_Some (f B !! Y)) →
  is_Some (fold_left (λ commands base, dict_update commands (f base)) bases acc !! Y).
Proof.
  revert acc. induction bases as [| base bases IH]; intros acc; simpl.
  - intros [Hacc | (B & HB & _)]; [done | by apply elem_of_nil in HB].
  - intros Hsome. apply IH.
    destruct Hsome as [Hacc | (B & HB & HBY)].
    + left. unfold dict_update. apply lookup_union_is_Some. by right.
    + apply elem_of_cons in HB as [-> | HB].
      * left. unfold dict_update. apply lookup_union_is_Some. by left.
      * right. eauto.
Qed.

Lemma device_type_registry cname bases namespace :
  _device_group_commands (DeviceType cname bases namespace)
  = Some (dict_update
            (fold_left
               (λ commands base,
                  dict_update commands (default ∅ (_device_group_commands base)))
               bases ∅)
            (_get_commands_for_namespace namespace)).
Proof. reflexivity. Qed.

(** Every entry of a registry is the descriptor some device type of the
    hierarchy declares under that name. *)
Lemma registry_sound D registry Y d :
  _device_group_commands D = Some registry →
  registry !! Y = Some d →
  ∃ A, device_ancestor A D ∧ declares_last (class_namespace A) Y d.
Proof.
  revert registry. induction D as [cname namespace | cname bases namespace IH]
    using PyClass_bases_ind; intros registry Hreg Hlook.
  - discriminate.
  - rewrite device_type_registry in Hreg. injection Hreg as <-.
    unfold dict_update at 1 in Hlook.
    apply lookup_union_Some_raw in Hlook as [Hown | [_ Hbases]].
    + exists (DeviceType cname bases namespace). split; [constructor |].
      by apply own_commands_lookup.
    + apply bases_fold_lookup_Some in Hbases as [Hempty | (B & HB & HBY)].
      * by rewrite lookup_empty in Hempty.
      * rewrite Forall_forall in IH.
        destruct (_device_group_commands B) as [regB |] eqn:HregB; simpl in HBY.
        -- destruct (IH B HB regB HregB HBY) as (A & HA & Hlast).
           exists A. split; [| done]. by eapply ancestor_base.
        -- by rewrite lookup_empty in HBY.
Qed.

(** Every name declared by a device type of the hierarchy is a key of the
    registry. *)
Lemma registry_complete A D Y dA :
  device_ancestor A D →
  declares (class_namespace A) Y dA →
  ∃ registry, _device_group_commands D = Some registry ∧ is_Some (registry !! Y).
Proof.
  intros Hanc. induction Hanc as [cname bases namespace
                                 | A B cname bases namespace HB Hanc IH];
    intros Hdecl; rewrite device_type_registry; eexists; (split; [reflexivity |]);
    unfold dict_update at 1; apply lookup_union_is_Some.
  - left. simpl in Hdecl. apply declares_has_last in Hdecl as [d' Hlast].
    exists d'. by apply own_commands_lookup.
  - right. apply bases_fold_is_Some. right. exists B. split; [done |].
    destruct (IH Hdecl) as (regB & -> & Hsome). done.
Qed.

(** A base outside the framework has no registry and adds nothing. *)
Lemma plain_base_adds_nothing cname bases namespace pname pnamespace :
  _device_group_commands
    (DeviceType cname (bases ++ [PlainType pname pnamespace]) namespace)
  = _device_group_commands (DeviceType cname bases namespace).
Proof.
  rewrite !device_type_registry, fold_left_app. simpl.
  unfold dict_update at 2. by rewrite (left_id_L ∅ (∪)).
Qed.

Lemma declares_last_unique ns X d d' :
  declares_last ns X d → declares_last ns X d' → d = d'.
Proof.
  intros Hd Hd'. apply own_commands_lookup in Hd, Hd'. congruence.
Qed.

Lemma list_commands_elem group ctx Y :
  Y ∈ list_commands group ctx ↔ is_Some (commands group !! Y).
Proof.
  unfold list_commands, sorted. rewrite merge_sort_Permutation.
  rewrite list_elem_of_fmap. split.
  - intros ([Y' d] & -> & Hin). apply elem_of_map_to_list in Hin. by exists d.
  - intros [d Hd]. exists (Y, d). split; [done |]. by apply elem_of_map_to_list.
Qed.

End ClassRegistry.

Section Shadowing.
Context `{PyBuiltins}.

(** Bases that register nothing under a name leave the dict as it is. *)
Lemma bases_fold_unregistered (f : PyClass → gmap string Command) after acc Y :
  (∀ B', B' ∈ after → f B' !! Y = None) →
  fold_left (λ commands base, dict_update commands (f base)) after acc !! Y = acc !! Y.
Proof.
  revert acc. induction after as [| B' after IH]; intros acc Hnone; simpl; [done |].
  rewrite IH.
  - unfold dict_update. apply lookup_union_r, Hnone, elem_of_cons. by left.
  - intros B'' HB''. apply Hnone, elem_of_cons. by right.
Qed.

(** The last base that registers a name decides. *)
Lemma bases_fold_last_registering (f : PyClass → gmap string Command)
    before B after acc Y d :
  f B !! Y = Some d →
  (∀ B', B' ∈ after → f B' !! Y = None) →
  fold_left (λ commands base, dict_update commands (f base))
    (before ++ B :: after)%list acc !! Y = Some d.
Proof.
  intros HB Hafter. rewrite fold_left_app. simpl.
  rewrite bases_fold_unregistered by done.
  unfold dict_update. apply lookup_union_Some_raw. by left.
Qed.






End Shadowing.


(** C8 (as the code has it): the names listed for a device type are in
    strictly increasing lexicographic order, hence without duplicates, and
    they are exactly the keys of the registry: every command name declared
    by the type or by a device type among its ancestors is listed. *)
Theorem list_commands_sorted_complete `{PyBuiltins} D group ctx :
  DeviceGroup_init D = inr group →
  StronglySorted str_lt (list_commands group ctx)
  ∧ NoDup (list_commands group ctx)
  ∧ (∀ A Y dA,
       device_ancestor A D →
       declares (class_namespace A) Y dA →
       Y ∈ list_commands group ctx)
  ∧ (∀ Y, Y ∈ list_commands group ctx ↔ is_Some (commands group !! Y)).
Proof.
  intros Hinit. unfold DeviceGroup_init in Hinit.
  destruct (_device_group_commands D) as [registry |] eqn:Hreg; [| discriminate].
  injection Hinit as <-.
  destruct (sorted_strict (map_to_list registry).*1
              (NoDup_fst_map_to_list registry)) as [Hsorted Hperm].
  split; [exact Hsorted |]. split; [| split].
  - unfold list_commands. simpl. rewrite Hperm. apply NoDup_fst_map_to_list.
  - intros A Y dA HA HdA. apply list_commands_elem. simpl.
    destruct (registry_complete A D Y dA HA HdA) as (registry' & Hreg' & Hsome).
    congruence.
  - intros Y. apply list_commands_elem.
Qed.

(** ** Command resolution *)

Lemma pop_kwarg_device ref key dflt w :
  device (snd (pop_kwarg ref key dflt w)) = device w.
Proof. unfold pop_kwarg. by destruct (kwargs_of ref w !! key). Qed.

Lemma pop_kwarg_trace ref key dflt w :
  trace (snd (pop_kwarg ref key dflt w)) = trace w.
Proof. unfold pop_kwarg. by destruct (kwargs_of ref w !! key). Qed.

Lemma pop_kwarg_removes ref key dflt w :
  kwargs_of ref (snd (pop_kwarg ref key dflt w)) !! key = None.
Proof.
  unfold pop_kwarg. destruct (kwargs_of ref w !! key) eqn:Hkey; simpl.
  - unfold kwargs_of at 1. simpl. rewrite lookup_insert_eq. simpl.
    apply lookup_delete_eq.
  - exact Hkey.
Qed.

Lemma pop_kwarg_absent ref key dflt w :
  kwargs_of ref w !! key = None → pop_kwarg ref key dflt w = (Ok dflt, w).
Proof. unfold pop_kwarg. by intros ->. Qed.

Lemma emitted_echo v w : emitted (snd (echo v w)) = (emitted w ++ [v])%list.
Proof. unfold emitted, echo, log. simpl. by rewrite omap_app. Qed.

Lemma fetch_count_echo v w : fetch_count (snd (echo v w)) = fetch_count w.
Proof.
  unfold fetch_count, echo, log. simpl.
  rewrite List.filter_app, length_app. simpl. lia.
Qed.

(** The loop of [wrap] over the stored (reversed) list composes the declared
    decorators so that the first declared one is applied last. *)
Lemma apply_decorators_rev (declared : list Decorator) (func : Callable) :
  apply_decorators (rev declared) func
  = fold_right (fun decorator func => decorator func) func declared.
Proof.
  unfold apply_decorators.
  rewrite <- (rev_involutive declared) at 2.
  symmetry. apply fold_left_rev_right.
Qed.

Section Resolution.
Context `{PyBuiltins}.

(** [wrap] never raises: it pops the skip option, snapshots the remaining
    options and composes the callback. *)
Lemma wrap_run self ctx func w :
  let w' := snd (pop_kwarg (cmd_ref self) "skip_autodetect" PyNone w) in
  wrap self ctx func w
  = (Ok (mkClickCommand (command_name self) (kwargs_of (cmd_ref self) w')
           (apply_decorators (decorators self) (wrap_output self ctx func))),
     w').
Proof.
  unfold wrap, bind, get_kwargs, ret, pop_kwarg.
  by destruct (kwargs_of (cmd_ref self) w !! "skip_autodetect").
Qed.

(** The option that asks to skip the guard is gone once [wrap] returned. *)
Lemma wrap_consumes_skip_autodetect self ctx func w cmd w' :
  wrap self ctx func w = (Ok cmd, w') →
  kwargs_of (cmd_ref self) w' !! "skip_autodetect" = None
  ∧ click_attrs cmd !! "skip_autodetect" = None
  ∧ device w' = device w ∧ trace w' = trace w.
Proof.
  rewrite wrap_run. intros [= <- <-]. simpl.
  split; [apply pop_kwarg_removes |]. split; [apply pop_kwarg_removes |].
  split; [apply pop_kwarg_device | apply pop_kwarg_trace].
Qed.

(** An unknown name is a usage error and changes nothing. *)
Lemma get_command_unknown group ctx cmd_name w :
  commands group !! cmd_name = None →
  get_command group ctx cmd_name w
  = (Raise (UsageError ("Unknown command (" ++ cmd_name ++ ")")), w).
Proof. intros Hnone. unfold get_command. by rewrite Hnone. Qed.

(** A class that the metaclass did not build cannot be given a group. *)
Lemma DeviceGroup_init_plain cname namespace :
  ∃ msg, DeviceGroup_init (PlainType cname namespace) = inl (RuntimeError msg).
Proof. eexists. reflexivity. Qed.

End Resolution.

(** C5: the output strategy that [wrap] puts around the callable is the
    override of the global context object when the context chain has one
    with an output, else the default output of the descriptor when it has
    one, else the text strategy whose message is ["Running command "]
    followed by the command name, with the default result template. *)
Theorem output_strategy_precedence `{PyBuiltins} self ctx func w :
  resolved_callback (wrap self ctx func w)
  = Some (apply_decorators (decorators self) (wrap_output self ctx func))
  ∧ (∀ gco override,
       find_object ctx = Some gco → output gco = Some override →
       wrap_output self ctx = override)
  ∧ (∀ default,
       (∀ gco, find_object ctx = Some gco → output gco = None) →
       default_output self = Some default →
       wrap_output self ctx = default)
  ∧ ((∀ gco, find_object ctx = Some gco → output gco = None) →
     default_output self = None →
     wrap_output self ctx
     = format_output (FmtStr ("Running command " ++ command_name self))
                     default_result_msg_fmt).
Proof.
  split; [by rewrite wrap_run |]. unfold wrap_output.
  split; [| split].
  - intros [dbg out] override -> Hout. simpl in Hout. by subst out.
  - intros default Hno ->.
    destruct (find_object ctx) as [[dbg [out |]] |]; try done.
    specialize (Hno _ eq_refl). discriminate.
  - intros Hno ->.
    destruct (find_object ctx) as [[dbg [out |]] |]; try done.
    specialize (Hno _ eq_refl). discriminate.
Qed.


(** For any number of declared decorators the nesting follows the order of
    declaration, outermost first. *)
Lemma declared_decorators_nesting `{PyBuiltins} ref name declared default_output
    func ctx inner w :
  let cmd := command ref declared name default_output func in
  resolved_callback (wrap cmd ctx inner w)
  = Some (fold_right (fun decorator func => decorator func)
            (wrap_output cmd ctx inner) declared).
Proof.
  intros cmd. rewrite wrap_run. simpl. by rewrite apply_decorators_rev.
Qed.

(** ** The autodetect guard *)

Section Guard.
Context `{DeviceImpl}.

(** With a cached model or cached info the guard goes straight to the
    method: it only pops the skip option. *)
Lemma guard_cached dgc func args kwargs w :
  _model (device w) ≠ None ∨ _info (device w) ≠ None →
  _autodetect_model_if_needed dgc func args kwargs w
  = func args kwargs (snd (pop_kwarg dgc "skip_autodetect" (PyBool false) w)).
Proof.
  intros Hcached. unfold _autodetect_model_if_needed, bind, get_device.
  assert (Hdev := pop_kwarg_device dgc "skip_autodetect" (PyBool false) w).
  destruct (pop_kwarg dgc "skip_autodetect" (PyBool false) w) as [[v | e] w'] eqn:Hpop.
  - simpl in *. rewrite Hdev.
    destruct (_model (device w)), (_info (device w));
      rewrite ?andb_false_r; simpl; try reflexivity.
    destruct Hcached; congruence.
  - unfold pop_kwarg in Hpop.
    destruct (kwargs_of dgc w !! "skip_autodetect"); discriminate.
Qed.

(** Without the skip option and without caches the guard fetches first. *)
Lemma guard_fetches dgc func args kwargs w :
  kwargs_of dgc w !! "skip_autodetect" = None →
  _model (device w) = None →
  _info (device w) = None →
  _autodetect_model_if_needed dgc func args kwargs w
  = (let* _ := _fetch_info in func args kwargs) w.
Proof.
  intros Hopt Hmodel Hinfo. unfold _autodetect_model_if_needed, bind at 1.
  rewrite (pop_kwarg_absent _ _ _ _ Hopt). unfold bind at 1, get_device.
  rewrite Hmodel, Hinfo. simpl. unfold bind, ret.
  destruct (_fetch_info w) as [[v | e] w']; reflexivity.
Qed.

(** After a command was resolved through [wrap], its guard fetches
    whenever nothing is cached, whatever the options of the descriptor
    were before the resolution. *)
Lemma guard_fetches_after_wrap `{PyBuiltins} self ctx func w cmd w' body args kwargs :
  wrap self ctx func w = (Ok cmd, w') →
  _model (device w') = None →
  _info (device w') = None →
  _autodetect_model_if_needed (cmd_ref self) body args kwargs w'
  = (let* _ := _fetch_info in body args kwargs) w'.
Proof.
  intros Hwrap Hmodel Hinfo.
  apply wrap_consumes_skip_autodetect in Hwrap as (Hopt & _).
  by apply guard_fetches.
Qed.

End Guard.

(** C3: of two sequential command calls on the same device instance, when
    the first left a cached model or cached info, the guard of the second
    does not call the info-fetch: the second call is the method body run in
    the world the first call left, with the same device, the same events
    and the same number of info-fetches. *)
Theorem guard_no_second_fetch `{DeviceImpl}
    dgc1 func1 args1 kwargs1 dgc2 func2 args2 kwargs2 w r1 w1 :
  _autodetect_model_if_needed dgc1 func1 args1 kwargs1 w = (r1, w1) →
  _model (device w1) ≠ None ∨ _info (device w1) ≠ None →
  let w1' := snd (pop_kwarg dgc2 "skip_autodetect" (PyBool false) w1) in
  _autodetect_model_if_needed dgc2 func2 args2 kwargs2 w1 = func2 args2 kwargs2 w1'
  ∧ device w1' = device w1
  ∧ trace w1' = trace w1
  ∧ fetch_count w1' = fetch_count w1.
Proof.
  intros _ Hcached w1'. split; [by apply guard_cached |].
  split; [apply pop_kwarg_device |].
  assert (Htrace : trace w1' = trace w1) by apply pop_kwarg_trace.
  split; [exact Htrace |]. unfold fetch_count. by rewrite Htrace.
Qed.

(** ** Output strategies *)

(** C6 (as the code has it): in the template-text strategy with a template
    string as post-message spec, when the result exposes a display string
    ([__cli_output__] is not [None]), exactly that value is emitted after the
    call, unchanged, and the template is not rendered. *)
Theorem display_string_replaces_template `{PyBuiltins}
    msg_fmt template func args kwargs w w1 w2 result :
  emit_msg msg_fmt kwargs w = (Ok tt, w1) →
  func args kwargs w1 = (Ok result, w2) →
  getattr result "__cli_output__" ≠ PyNone →
  format_output msg_fmt (FmtStr template) func args kwargs w
  = (Ok PyNone, snd (echo (getattr result "__cli_output__") w2))
  ∧ emitted (snd (format_output msg_fmt (FmtStr template) func args kwargs w))
    = (emitted w2 ++ [getattr result "__cli_output__"])%list.
Proof.
  intros Hpre Hcall Hshown.
  assert (Hrun : format_output msg_fmt (FmtStr template) func args kwargs w
                 = (Ok PyNone, snd (echo (getattr result "__cli_output__") w2))).
  { unfold format_output, bind. rewrite Hpre, Hcall.
    unfold emit_result. simpl.
    destruct (getattr result "__cli_output__"); try done. }
  split; [exact Hrun |]. rewrite Hrun. simpl. apply emitted_echo.
Qed.

(** With a callable post-message spec the display string is not looked at:
    the callable is rendered. *)
Lemma callable_result_fmt_is_rendered `{PyBuiltins}
    msg_fmt f func args kwargs w w1 w2 result :
  emit_msg msg_fmt kwargs w = (Ok tt, w1) →
  func args kwargs w1 = (Ok result, w2) →
  format_output msg_fmt (FmtCall f) func args kwargs w
  = (let* result_msg := f (<["result" := result]> kwargs) in
     let* _ := echo_stripped result_msg in
     ret PyNone) w2.
Proof.
  intros Hpre Hcall. unfold format_output, bind. rewrite Hpre, Hcall.
  unfold emit_result. simpl. unfold bind.
  destruct (f (<["result" := result]> kwargs) w2) as [[result_msg | e] w3];
    [| reflexivity].
  destruct (echo_stripped result_msg w3) as [[[] | e] w4]; reflexivity.
Qed.

(** C7: under the JSON strategy, when the command raises a device error
    whose first argument is a payload that serialises to [s], the wrapper
    emits exactly [s], once, and returns [None] instead of raising. *)
Theorem json_output_recovers_device_error `{PyBuiltins}
    (pretty : bool) (func : Callable) args kwargs w w' payload rest s :
  func args kwargs w = (Raise (DeviceError (payload :: rest)), w') →
  json_dumps (if pretty then Some 2 else None) payload = inr s →
  json_output pretty func args kwargs w = (Ok PyNone, snd (echo (PyStr s) w'))
  ∧ emitted (snd (json_output pretty func args kwargs w))
    = (emitted w' ++ [PyStr s])%list.
Proof.
  intros Hcall Hdumps.
  assert (Hrun : json_output pretty func args kwargs w
                 = (Ok PyNone, snd (echo (PyStr s) w'))).
  { unfold json_output. rewrite Hcall. unfold bind. rewrite Hdumps. reflexivity. }
  split; [exact Hrun |]. rewrite Hrun. simpl. apply emitted_echo.
Qed.

(** Any other exception passes through the JSON strategy unchanged. *)
Lemma json_output_propagates `{PyBuiltins} pretty func args kwargs w w' e :
  func args kwargs w = (Raise e, w') →
  (∀ ex_args, e ≠ DeviceError ex_args) →
  json_output pretty func args kwargs w = (Raise e, w').
Proof.
  intros Hcall Hother. unfold json_output. rewrite Hcall.
  destruct e; try reflexivity. by destruct (Hother args0).
Qed.

(** The text strategy has no recovery: an exception of the command passes
    through. *)
Lemma format_output_propagates `{PyBuiltins}
    msg_fmt result_msg_fmt func args kwargs w w1 w2 e :
  emit_msg msg_fmt kwargs w = (Ok tt, w1) →
  func args kwargs w1 = (Raise e, w2) →
  format_output msg_fmt result_msg_fmt func args kwargs w = (Raise e, w2).
Proof.
  intros Hpre Hcall. unfold format_output, bind. by rewrite Hpre, Hcall.
Qed.

(** C10: whenever one of the two built-in output wrappers returns, it
    returns [None], whatever the wrapped callable returned. *)
Theorem output_wrappers_return_None `{PyBuiltins} func args kwargs w v w' :
  (∀ msg_fmt result_msg_fmt,
     format_output msg_fmt result_msg_fmt func args kwargs w = (Ok v, w') →
     v = PyNone)
  ∧ (∀ pretty,
     json_output pretty func args kwargs w = (Ok v, w') →
     v = PyNone).
Proof.
  split.
  - intros msg_fmt result_msg_fmt. unfold format_output, bind, ret.
    destruct (emit_msg msg_fmt kwargs w) as [[[] | e] w1]; [| discriminate].
    destruct (func args kwargs w1) as [[result | e] w2]; [| discriminate].
    destruct (emit_result _ _ _ w2) as [[[] | e] w3]; [| discriminate].
    by intros [= <- _].
  - intros pretty. unfold json_output, bind, ret, echo, log.
    destruct (func args kwargs w) as [[result | e] w1].
    + destruct (if negb (is_None (getattr result "__json__")) then _ else _)
        as [[data | e] w2]; [| discriminate].
      destruct (lift _ w2) as [[s | e] w3]; [| discriminate].
      by intros [= <- _].
    + destruct e; try discriminate.
      destruct args0 as [| payload rest]; [discriminate |].
      destruct (lift _ w1) as [[s | e] w3]; [| discriminate].
      by intros [= <- _].
Qed.

(** When the command returns and the rendering succeeds, the text wrapper
    does return. *)
Lemma format_output_returns `{PyBuiltins}
    msg_fmt result_msg_fmt func args kwargs w w1 w2 w3 result :
  emit_msg msg_fmt kwargs w = (Ok tt, w1) →
  func args kwargs w1 = (Ok result, w2) →
  emit_result result_msg_fmt result (<["result" := result]> kwargs) w2 = (Ok tt, w3) →
  format_output msg_fmt result_msg_fmt func args kwargs w = (Ok PyNone, w3).
Proof.
  intros Hpre Hcall Hpost. unfold format_output, bind. by rewrite Hpre, Hcall, Hpost.
Qed.

(** * Further properties *)

(** ** Resolution and listing *)

Lemma pop_kwarg_kwargs ref key dflt w :
  kwargs_of ref (snd (pop_kwarg ref key dflt w)) = delete key (kwargs_of ref w).
Proof.
  unfold pop_kwarg. destruct (kwargs_of ref w !! key) eqn:Hkey; simpl.
  - unfold kwargs_of at 1. simpl. by rewrite lookup_insert_eq.
  - by rewrite delete_id.
Qed.

Lemma pop_kwarg_other ref key dflt w ref' :
  ref' ≠ ref → kwargs_of ref' (snd (pop_kwarg ref key dflt w)) = kwargs_of ref' w.
Proof.
  intros Hne. unfold pop_kwarg. destruct (kwargs_of ref w !! key); simpl; [| done].
  unfold kwargs_of at 1. simpl. by rewrite lookup_insert_ne.
Qed.

(** The names that [list_commands] lists are the names that [get_command]
    resolves; any other name is refused with the usage error
    ["Unknown command (<name>)"] and the world is left as it was. *)
Theorem listed_commands_resolve `{PyBuiltins} group ctx name w :
  (name ∈ list_commands group ctx →
   ∃ cmd w', get_command group ctx name w = (Ok cmd, w'))
  ∧ (name ∉ list_commands group ctx →
     get_command group ctx name w
     = (Raise (UsageError ("Unknown command (" ++ name ++ ")")), w)).
Proof.
  rewrite list_commands_elem. unfold get_command. split.
  - intros [d ->]. rewrite wrap_run. eauto.
  - intros Hnot. destruct (commands group !! name) as [d |] eqn:Hd; [| done].
    destruct Hnot. by exists d.
Qed.

(** A command resolved through the group of a device type carries the name
    it was asked by and the options of its descriptor without
    [skip_autodetect]; the resolution emits nothing, fetches nothing, leaves
    the device as it is and touches the options of no other descriptor. *)
Theorem resolved_command_attributes `{PyBuiltins} D group ctx name w cmd w' :
  DeviceGroup_init D = inr group →
  get_command group ctx name w = (Ok cmd, w') →
  ∃ d, commands group !! name = Some d
       ∧ click_name cmd = name
       ∧ click_attrs cmd = delete "skip_autodetect" (kwargs_of (cmd_ref d) w)
       ∧ device w' = device w
       ∧ trace w' = trace w
       ∧ ∀ ref, ref ≠ cmd_ref d → kwargs_of ref w' = kwargs_of ref w.
Proof.
  intros Hinit Hget. unfold DeviceGroup_init in Hinit.
  destruct (_device_group_commands D) as [registry |] eqn:Hreg; [| discriminate].
  injection Hinit as <-. unfold get_command in Hget. simpl in Hget.
  destruct (registry !! name) as [d |] eqn:Hd; [| discriminate].
  rewrite wrap_run in Hget. injection Hget as <- <-. exists d. simpl.
  split; [done |]. split.
  - destruct (registry_sound D registry name d Hreg Hd) as (A & _ & Hlast).
    by destruct Hlast as (? & ? & ? & ? & _ & Hname & _).
  - split; [apply pop_kwarg_kwargs |].
    split; [apply pop_kwarg_device |]. split; [apply pop_kwarg_trace |].
    intros ref Hne. by apply pop_kwarg_other.
Qed.

(** Resolving a command again gives the same click command and changes
    nothing more. *)
Theorem resolution_idempotent `{PyBuiltins} group ctx name w cmd w' :
  get_command group ctx name w = (Ok cmd, w') →
  get_command group ctx name w' = (Ok cmd, w').
Proof.
  unfold get_command. destruct (commands group !! name) as [d |]; [| discriminate].
  rewrite !wrap_run. intros [= <- <-].
  assert (Habsent := pop_kwarg_removes (cmd_ref d) "skip_autodetect" PyNone w).
  rewrite (pop_kwarg_absent _ _ _ _ Habsent). reflexivity.
Qed.

(** ** Several bases, overriding, dispatch *)

Section Hierarchy.
Context `{PyBuiltins}.

Lemma undeclared_not_own namespace X :
  (∀ d', ¬ declares namespace X d') → _get_commands_for_namespace namespace !! X = None.
Proof.
  intros Hnone. destruct (_get_commands_for_namespace namespace !! X) as [d |] eqn:Hd;
    [| done].
  apply own_commands_lookup, declares_last_declares in Hd. by apply Hnone in Hd.
Qed.

(** What the last base registers under a name, the class inherits, unless
    it declares the name itself. *)
Lemma inherited_from_last_base cname bases B namespace regB X d :
  _device_group_commands B = Some regB →
  regB !! X = Some d →
  (∀ d', ¬ declares namespace X d') →
  ∃ registry,
    _device_group_commands (DeviceType cname (bases ++ [B])%list namespace)
    = Some registry
    ∧ registry !! X = Some d.
Proof.
  intros HregB Hd Hnone. rewrite device_type_registry. eexists. split; [reflexivity |].
  unfold dict_update at 1. rewrite lookup_union_r by by apply undeclared_not_own.
  rewrite fold_left_app. simpl. rewrite HregB. simpl.
  unfold dict_update at 1. apply lookup_union_Some_raw. by left.
Qed.

Lemma depth_first_own cname bases namespace attr v :
  assoc attr namespace = Some v →
  class_getattr_depth_first (DeviceType cname bases namespace) attr = Some v.
Proof. intros Hown. simpl. by rewrite Hown. Qed.

Lemma depth_first_first_base cname B bases namespace attr v :
  assoc attr namespace = None →
  class_getattr_depth_first B attr = Some v →
  class_getattr_depth_first (DeviceType cname (B :: bases) namespace) attr = Some v.
Proof. intros Hown HB. simpl. by rewrite Hown, HB. Qed.

Lemma depth_first_skip_base cname B bases namespace attr :
  assoc attr namespace = None →
  class_getattr_depth_first B attr = None →
  class_getattr_depth_first (DeviceType cname (B :: bases) namespace) attr
  = class_getattr_depth_first (DeviceType cname bases namespace) attr.
Proof. intros Hown HB. simpl. by rewrite Hown, HB. Qed.

Lemma depth_first_some_base cname bases namespace attr B :
  B ∈ bases →
  is_Some (class_getattr_depth_first B attr) →
  is_Some (class_getattr_depth_first (DeviceType cname bases namespace) attr).
Proof.
  destruct (assoc attr namespace) as [v |] eqn:Hown.
  { intros _ _. exists v. by apply depth_first_own. }
  induction bases as [| B' bases IH]; intros HB Hsome.
  - by apply elem_of_nil in HB.
  - destruct (class_getattr_depth_first B' attr) as [v |] eqn:HB'.
    + exists v. by apply depth_first_first_base.
    + rewrite depth_first_skip_base by done.
      apply elem_of_cons in HB as [-> | HB].
      * rewrite HB' in Hsome. by destruct Hsome.
      * by apply IH.
Qed.

Lemma assoc_elem {A : Type} (k : string) (v : A) (l : list (string * A)) :
  (k, v) ∈ l → is_Some (assoc k l).
Proof.
  induction l as [| [k' v'] l IH]; intros Hin.
  - by apply elem_of_nil in Hin.
  - simpl. destruct (String.eqb_spec k k') as [-> | Hne]; [by eexists |].
    apply elem_of_cons in Hin as [[= -> ->] | Hin]; [done | by apply IH].
Qed.

Lemma depth_first_ancestor A D attr :
  device_ancestor A D →
  is_Some (assoc attr (class_namespace A)) →
  is_Some (class_getattr_depth_first D attr).
Proof.
  induction 1 as [cname bases namespace | A B cname bases namespace HB Hanc IH];
    intros Hsome.
  - destruct Hsome as [v Hv]. exists v. by apply depth_first_own.
  - eapply depth_first_some_base; [exact HB | by apply IH].
Qed.

(** A linearization starts with the class itself. *)
Lemma mro_head cls classes : mro cls = Some classes → ∃ rest, classes = cls :: rest.
Proof.
  destruct cls as [cname bases namespace | cname namespace]; simpl.
  - destruct (all_some (List.map mro bases)) as [linearizations |]; [| done].
    destruct (c3_merge _) as [rest |]; [| done]. intros [= <-]. eauto.
  - intros [= <-]. eauto.
Qed.

Lemma mro_device cname bases namespace :
  mro (DeviceType cname bases namespace)
  = match all_some (List.map mro bases) with
    | None => None
    | Some linearizations =>
        match c3_merge (linearizations ++ [bases]) with
        | None => None
        | Some rest => Some (DeviceType cname bases namespace :: rest)
        end
    end.
Proof. reflexivity. Qed.

Lemma class_getattr_depth_first_some cls attr :
  is_Some (class_getattr_depth_first cls attr) → is_Some (class_getattr cls attr).
Proof.
  intros Hsome. unfold class_getattr. destruct (mro cls) as [classes |]; [| done].
  by destruct (mro_lookup classes attr).
Qed.

(** What the class body binds is found first. *)
Lemma class_getattr_own cname bases namespace attr v :
  assoc attr namespace = Some v →
  class_getattr (DeviceType cname bases namespace) attr = Some v.
Proof.
  intros Hown. unfold class_getattr.
  destruct (mro (DeviceType cname bases namespace)) as [classes |] eqn:Hmro.
  - apply mro_head in Hmro as [rest ->]. simpl. by rewrite Hown.
  - by apply depth_first_own.
Qed.

(** With two bases, a linearization continues with the first base. *)
Lemma c3_merge_first_base (B1 B2 : PyClass) rest1 rest2 classes :
  c3_merge [B1 :: rest1; B2 :: rest2; [B1; B2]] = Some classes →
  ∃ rest, classes = B1 :: rest.
Proof.
  unfold c3_merge.
  set (lists := [B1 :: rest1; B2 :: rest2; [B1; B2]]).
  generalize (length (concat lists)). intros fuel.
  change (c3_merge_steps (S fuel) lists)
    with (match List.find (good_head lists) [B1; B2; B1] with
          | None => None
          | Some c =>
              match c3_merge_steps fuel (List.map (drop_head (class_name c)) lists) with
              | None => None
              | Some rest => Some (c :: rest)
              end
          end).
  assert (Hsecond : good_head lists B2 = false).
  { unfold good_head, lists. cbn [forallb in_tail existsb].
    rewrite String.eqb_refl. cbn. by rewrite !andb_false_r. }
  cbn [List.find]. rewrite Hsecond.
  destruct (good_head lists B1); [| done].
  destruct (c3_merge_steps fuel _) as [rest |]; [| done].
  intros [= <-]. eauto.
Qed.

(** What the first of two bases binds in its own body is found when the
    class body does not bind it. *)
Lemma class_getattr_first_base_own cname n1 bases1 namespace1 B2 namespace attr v :
  assoc attr namespace = None →
  assoc attr namespace1 = Some v →
  class_getattr (DeviceType cname [DeviceType n1 bases1 namespace1; B2] namespace) attr
  = Some v.
Proof.
  intros Hown Hfirst. unfold class_getattr.
  remember (DeviceType n1 bases1 namespace1) as B1 eqn:HB1.
  assert (Hdepth : class_getattr_depth_first (DeviceType cname [B1; B2] namespace) attr
                   = Some v).
  { apply depth_first_first_base; [done |]. subst B1. by apply depth_first_own. }
  destruct (mro (DeviceType cname [B1; B2] namespace)) as [classes |] eqn:Hmro;
    [| exact Hdepth].
  rewrite mro_device in Hmro. cbn [List.map all_some] in Hmro.
  destruct (mro B1) as [m1 |] eqn:Hm1; [| done].
  destruct (mro B2) as [m2 |] eqn:Hm2; [| done].
  apply mro_head in Hm1 as [rest1 ->]. apply mro_head in Hm2 as [rest2 ->].
  cbn [app] in Hmro.
  destruct (c3_merge _) as [rest |] eqn:Hmerge; [| done].
  apply c3_merge_first_base in Hmerge as [rest' ->].
  injection Hmro as <-. cbn [mro_lookup class_namespace]. rewrite Hown.
  subst B1. cbn [class_namespace]. by rewrite Hfirst.
Qed.

Lemma class_getattr_ancestor A D attr :
  device_ancestor A D →
  is_Some (assoc attr (class_namespace A)) →
  is_Some (class_getattr D attr).
Proof.
  intros HA Hsome. apply class_getattr_depth_first_some.
  by apply (depth_first_ancestor A D).
Qed.

End Hierarchy.

(** With several bases the registry takes, for a name the class does not
    declare itself, the descriptor of the last base that registers the
    name: the bases before it may register anything, the bases after it
    register nothing under that name. *)
Theorem last_base_wins `{PyBuiltins} cname before B after namespace regB X d :
  _device_group_commands B = Some regB →
  regB !! X = Some d →
  (∀ B' regB', B' ∈ after →
               _device_group_commands B' = Some regB' → regB' !! X = None) →
  (∀ d', ¬ declares namespace X d') →
  ∃ registry,
    _device_group_commands (DeviceType cname (before ++ B :: after)%list namespace)
    = Some registry
    ∧ registry !! X = Some d.
Proof.
  intros HregB Hd Hafter Hnone. rewrite device_type_registry.
  eexists. split; [reflexivity |].
  unfold dict_update at 1. rewrite lookup_union_r by by apply undeclared_not_own.
  apply bases_fold_last_registering.
  - by rewrite HregB.
  - intros B' HB'.
    destruct (_device_group_commands B') as [regB' |] eqn:HregB'; simpl; [| done].
    by apply (Hafter B').
Qed.

(** A class with two bases that both provide a command takes the
    descriptor from the second base, while the call of that command runs
    the attribute found in the first base: the registry and the dispatch by
    function name follow opposite orders. *)
Theorem registry_and_dispatch_disagree `{PyBuiltins}
    cname n1 bases1 namespace1 B2 namespace reg2 X c2 method1 tag1 :
  let B1 := DeviceType n1 bases1 namespace1 in
  let D := DeviceType cname [B1; B2] namespace in
  (∀ d', ¬ declares namespace X d') →
  assoc (__name__ (func c2)) namespace = None →
  assoc (__name__ (func c2)) namespace1 = Some (NsCallable method1 tag1) →
  _device_group_commands B2 = Some reg2 →
  reg2 !! X = Some c2 →
  ∃ registry,
    _device_group_commands D = Some registry
    ∧ registry !! X = Some c2
    ∧ command_callback (mkDeviceGroup registry D) c2 = method1.
Proof.
  intros B1 D Hnone Hown Hfirst Hreg2 Hc2. subst D B1.
  destruct (inherited_from_last_base cname [DeviceType n1 bases1 namespace1] B2
              namespace reg2 X c2 Hreg2 Hc2 Hnone) as (registry & Hreg & HX).
  exists registry. split; [exact Hreg |]. split; [exact HX |].
  unfold command_callback, call. cbn [device_class].
  rewrite (class_getattr_first_base_own cname n1 bases1 namespace1 B2 namespace _
             (NsCallable method1 tag1) Hown Hfirst).
  reflexivity.
Qed.

(** When a subtype redefines the method of an inherited command without
    [@command], the command stays registered with the descriptor of the base
    and its call runs the redefinition directly, without the autodetect
    guard. *)
Theorem undecorated_override_bypasses_guard `{PyBuiltins}
    cname B namespace regB X cmd method :
  let D := DeviceType cname [B] namespace in
  _device_group_commands B = Some regB →
  regB !! X = Some cmd →
  (∀ d', ¬ declares namespace X d') →
  assoc (__name__ (func cmd)) namespace = Some (NsCallable method None) →
  ∃ registry,
    _device_group_commands D = Some registry
    ∧ registry !! X = Some cmd
    ∧ command_callback (mkDeviceGroup registry D) cmd = method.
Proof.
  intros D HregB Hcmd Hnone Hown. subst D.
  destruct (inherited_from_last_base cname [] B namespace regB X cmd HregB Hcmd Hnone)
    as (registry & Hreg & HX).
  exists registry. split; [exact Hreg |]. split; [exact HX |].
  unfold command_callback, call. cbn [device_class].
  rewrite (class_getattr_own cname [B] namespace _ _ Hown). reflexivity.
Qed.

(** In a hierarchy where every tagged callable is bound under the name of
    its function, every registered command finds an attribute to call on
    the device: the call never ends in the [AttributeError] of a missing
    method. *)
Theorem registered_commands_have_attribute `{PyBuiltins} D registry X d :
  (∀ A, device_ancestor A D → bound_by_def (class_namespace A)) →
  _device_group_commands D = Some registry →
  registry !! X = Some d →
  is_Some (class_getattr D (__name__ (func d))).
Proof.
  intros Hbound Hreg Hd.
  destruct (registry_sound D registry X d Hreg Hd) as (A & HA & Hlast).
  apply declares_last_declares in Hlast as (attr & method & Hin & _).
  apply (class_getattr_ancestor A D); [exact HA |].
  rewrite <- (Hbound A HA attr method d Hin). by eapply assoc_elem.
Qed.

(** ** The context chain *)

Lemma find_object_nearest before gco after :
  no_global before → find_object (before ++ ObjGlobal gco :: after)%list = Some gco.
Proof.
  induction before as [| obj before IH]; intros Hnone; simpl; [done |].
  assert (Hrest : no_global before).
  { intros o g Ho. apply Hnone. apply elem_of_cons. by right. }
  destruct obj as [| g | | v]; try by apply IH.
  exfalso. apply (Hnone (ObjGlobal g) g); [apply elem_of_cons; by left | done].
Qed.

(** Only the nearest [GlobalContextObject] of the chain decides the output:
    what lies below it and above it, a farther one with an override
    included, changes nothing. *)
Theorem nearest_global_context_decides `{PyBuiltins} self before gco after :
  no_global before →
  wrap_output self (before ++ ObjGlobal gco :: after)%list
  = wrap_output self [ObjGlobal gco].
Proof.
  intros Hnone. unfold wrap_output. by rewrite (find_object_nearest _ _ _ Hnone).
Qed.

(** ** The guard: failing fetch, the skip option *)

(** When the info-fetch of the guard raises, the exception leaves the
    command and the method body is not run. *)
Theorem fetch_failure_stops_command `{DeviceImpl} dgc func args kwargs w e w' :
  kwargs_of dgc w !! "skip_autodetect" = None →
  _model (device w) = None →
  _info (device w) = None →
  _fetch_info w = (Raise e, w') →
  _autodetect_model_if_needed dgc func args kwargs w = (Raise e, w').
Proof.
  intros Hopt Hmodel Hinfo Hfetch.
  rewrite (guard_fetches dgc func args kwargs w Hopt Hmodel Hinfo).
  unfold bind. by rewrite Hfetch.
Qed.

(** A method called directly with [skip_autodetect] set in the options of
    its descriptor runs without an info-fetch, but the guard removes the
    option while reading it: when the body leaves the options and the empty
    caches as they are, the next call fetches. *)
Theorem skip_honoured_once `{DeviceImpl} dgc func args kwargs w v :
  kwargs_of dgc w !! "skip_autodetect" = Some v →
  truthy v = true →
  let w1 := snd (pop_kwarg dgc "skip_autodetect" (PyBool false) w) in
  _autodetect_model_if_needed dgc func args kwargs w = func args kwargs w1
  ∧ trace w1 = trace w
  ∧ ∀ r w2 (func2 : Callable) args2 kwargs2,
      func args kwargs w1 = (r, w2) →
      kwargs_of dgc w2 = kwargs_of dgc w1 →
      _model (device w2) = None →
      _info (device w2) = None →
      _autodetect_model_if_needed dgc func2 args2 kwargs2 w2
      = (let* _ := _fetch_info in func2 args2 kwargs2) w2.
Proof.
  intros Hopt Htruthy w1. split; [| split].
  - unfold _autodetect_model_if_needed, bind, get_device. subst w1.
    unfold pop_kwarg. rewrite Hopt. simpl. by rewrite Htruthy.
  - apply pop_kwarg_trace.
  - intros r w2 func2 args2 kwargs2 _ Hsame Hmodel Hinfo.
    apply guard_fetches; [| done | done].
    rewrite Hsame. apply pop_kwarg_removes.
Qed.

(** ** The text strategy: templates that cannot be rendered *)

(** A pre-message template that cannot be rendered raises before the
    wrapped callable is called: nothing ran and nothing was emitted.  A
    result template that cannot be rendered raises after the callable ran:
    its effects stay. *)
Theorem unrenderable_templates `{PyBuiltins} (func : Callable) args kwargs w e :
  (∀ template result_msg_fmt,
     template ≠ "" →
     str_format template kwargs = inl e →
     format_output (FmtStr template) result_msg_fmt func args kwargs w = (Raise e, w))
  ∧ (∀ msg_fmt template w1 w2 result,
       emit_msg msg_fmt kwargs w = (Ok tt, w1) →
       func args kwargs w1 = (Ok result, w2) →
       getattr result "__cli_output__" = PyNone →
       template ≠ "" →
       str_format template (<["result" := result]> kwargs) = inl e →
       format_output msg_fmt (FmtStr template) func args kwargs w = (Raise e, w2)).
Proof.
  split.
  - intros template result_msg_fmt Hne Hfmt.
    unfold format_output, bind, emit_msg, fmt_truthy, render.
    destruct (String.eqb_spec template "") as [-> | _]; [done |]. simpl.
    unfold bind. by rewrite Hfmt.
  - intros msg_fmt template w1 w2 result Hpre Hcall Hplain Hne Hfmt.
    unfold format_output, bind. rewrite Hpre, Hcall.
    unfold emit_result, fmt_truthy, render. simpl. rewrite Hplain. simpl.
    destruct (String.eqb_spec template "") as [-> | _]; [done |]. simpl.
    unfold bind. by rewrite Hfmt.
Qed.

(** ** The JSON strategy *)

(** What the JSON strategy serialises for a returned result: the value of
    its [__json__] method when it has one, even beside a [data] attribute;
    else its [data] attribute when that is not [None]; else the result
    itself. *)
Theorem json_output_prefers_structured_view `{PyBuiltins}
    (pretty : bool) (func : Callable) args kwargs w w' result s :
  func args kwargs w = (Ok result, w') →
  let indent := if pretty then Some 2 else None in
  let emits := json_output pretty func args kwargs w
               = (Ok PyNone, snd (echo (PyStr s) w')) in
  (∀ view, getattr result "__json__" = PyMethod view →
           json_dumps indent view = inr s → emits)
  ∧ (getattr result "__json__" = PyNone →
     getattr result "data" ≠ PyNone →
     json_dumps indent (getattr result "data") = inr s → emits)
  ∧ (getattr result "__json__" = PyNone →
     getattr result "data" = PyNone →
     json_dumps indent result = inr s → emits).
Proof.
  intros Hcall indent emits. subst emits indent.
  split; [| split].
  - intros view Hjson Hdumps. unfold json_output. rewrite Hcall, Hjson. simpl.
    unfold bind. simpl. by rewrite Hdumps.
  - intros Hjson Hdata Hdumps. unfold json_output. rewrite Hcall, Hjson. simpl.
    destruct (getattr result "data") eqn:Hd; try done;
      simpl; unfold bind; simpl; by rewrite Hdumps.
  - intros Hjson Hdata Hdumps. unfold json_output. rewrite Hcall, Hjson, Hdata.
    simpl. unfold bind. simpl. by rewrite Hdumps.
Qed.

(** Where the recovery of the JSON strategy ends: a device error raised
    without arguments leaves the wrapper as an [IndexError], and a payload
    that cannot be serialised leaves it as the error of [json.dumps]; in
    both cases nothing is emitted. *)
Theorem json_recovery_limits `{PyBuiltins}
    (pretty : bool) (func : Callable) args kwargs w w' :
  (func args kwargs w = (Raise (DeviceError []), w') →
   json_output pretty func args kwargs w = (Raise IndexError, w'))
  ∧ (∀ payload rest e,
       func args kwargs w = (Raise (DeviceError (payload :: rest)), w') →
       json_dumps (if pretty then Some 2 else None) payload = inl e →
       json_output pretty func args kwargs w = (Raise e, w')).
Proof.
  split.
  - intros Hcall. unfold json_output. by rewrite Hcall.
  - intros payload rest e Hcall Hdumps. unfold json_output. rewrite Hcall.
    unfold bind. by rewrite Hdumps.
Qed.

(** The JSON strategy adds exactly one value to what the wrapped callable
    emitted when it returns, and nothing at all when it raises. *)
Theorem json_output_emits_once `{PyBuiltins}
    (pretty : bool) (func : Callable) args kwargs w :
  let after_func := snd (func args kwargs w) in
  match json_output pretty func args kwargs w with
  | (Ok _, w') => ∃ s, emitted w' = (emitted after_func ++ [PyStr s])%list
  | (Raise _, w') => w' = after_func
  end.
Proof.
  unfold json_output, bind, lift.
  destruct (func args kwargs w) as [[result | e] w1]; simpl.
  - destruct (negb (is_None (getattr result "__json__")));
      [destruct (call0 (getattr result "__json__")) as [e | view]; simpl; [done |]
      | destruct (negb (is_None (getattr result "data"))); simpl];
      match goal with
      | |- context [json_dumps ?i ?v] => destruct (json_dumps i v) as [e | s]
      end; simpl; try done; exists s; apply (emitted_echo (PyStr s) w1).
  - destruct e; try done. destruct args0 as [| payload rest]; [done |].
    match goal with
    | |- context [json_dumps ?i ?v] => destruct (json_dumps i v) as [e | s]
    end; simpl; [done |].
    exists s. apply (emitted_echo (PyStr s) w1).
Qed.

(** ** The exception boundary *)

(** [ExceptionHandlerGroup.__call__] lets no [Exception] out: one raised by
    [main] is logged and the call returns [None] in the world the exception
    left; what [main] returns, and the [SystemExit] or [KeyboardInterrupt]
    that ends it, pass unchanged and unlogged. *)
Theorem exceptions_stop_at_the_boundary `{Logging} (main : Main) args kwargs w :
  (∀ ex, fst (ExceptionHandlerGroup_call main args kwargs w)
         ≠ inl (RaisedException ex))
  ∧ match main args kwargs w with
    | (inl (RaisedException ex), w') =>
        ExceptionHandlerGroup_call main args kwargs w
        = (inr PyNone, logger_exception ex w')
    | (other, w') => ExceptionHandlerGroup_call main args kwargs w = (other, w')
    end.
Proof.
  unfold ExceptionHandlerGroup_call.
  destruct (main args kwargs w) as [[[ex | code |] | result] w']; simpl;
    (split; [intros ex'; discriminate | reflexivity]).
Qed.

(** ** Enum-valued options *)

Lemma enum_choices_elem `{PyBuiltins} enumcls (casesensitive : bool) c :
  c ∈ choices (EnumType_init enumcls casesensitive)
  ↔ ∃ n, n ∈ __members__ enumcls ∧ c = if casesensitive then n else str_lower n.
Proof.
  unfold EnumType_init, sorted. simpl.
  rewrite merge_sort_Permutation, elem_of_remove_dups.
  destruct casesensitive; simpl.
  - split; [by eauto |]. by intros (n & Hn & ->).
  - rewrite list_elem_of_fmap. split; intros (n & H1 & H2); eauto.
Qed.

(** The choices of an enum option are in strictly increasing order, without
    repetition, and are exactly the names of the enum, aliases included,
    lower-cased unless the option is case sensitive. *)
Theorem enum_choices_sorted `{PyBuiltins} enumcls (casesensitive : bool) :
  StronglySorted str_lt (choices (EnumType_init enumcls casesensitive))
  ∧ ∀ c, c ∈ choices (EnumType_init enumcls casesensitive)
         ↔ ∃ n, n ∈ __members__ enumcls
                ∧ c = if casesensitive then n else str_lower n.
Proof.
  split; [| apply enum_choices_elem].
  unfold EnumType_init. simpl. apply sorted_strict, NoDup_remove_dups.
Qed.

Lemma next_member_first test enumcls member :
  member ∈ enum_members enumcls →
  test member = true →
  ∃ found, next_member test enumcls = inr found
           ∧ test found = true
           ∧ List.find test (enum_members enumcls) = Some found.
Proof.
  intros Hin Htest. unfold next_member.
  destruct (List.find test (enum_members enumcls)) as [found |] eqn:Hfind.
  - exists found. split; [done |]. split; [| done].
    by apply List.find_some in Hfind as [_ ?].
  - apply list_elem_of_In in Hin.
    rewrite (List.find_none _ _ Hfind member Hin) in Htest. discriminate.
Qed.

(** A case-insensitive enum option accepts the name of every member in any
    casing and converts it to the first member, in the order of definition,
    whose name is the same up to case: of two members named alike up to
    case only the first can be chosen. *)
Theorem enum_convert_ignores_case `{PyBuiltins} `{ClickChoice} enumcls value member :
  (∀ s, str_lower (str_lower s) = str_lower s) →
  member ∈ enum_members enumcls →
  str_lower (member_name member) = str_lower value →
  ∃ found,
    EnumType_convert (EnumType_init enumcls false) value = inr found
    ∧ str_lower (member_name found) = str_lower value
    ∧ List.find
        (fun m => String.eqb (str_lower (member_name m)) (str_lower value))
        (enum_members enumcls) = Some found.
Proof.
  intros Hidem Hin Hname. unfold EnumType_convert, Choice_convert.
  cbn [_casesensitive _enumcls EnumType_init negb].
  rewrite bool_decide_eq_true_2.
  - rewrite Hidem.
    destruct (next_member_first
                (fun m => String.eqb (str_lower (member_name m)) (str_lower value))
                enumcls member Hin) as (found & Hnext & Htest & Hfind).
    { by apply String.eqb_eq. }
    exists found. split; [exact Hnext |]. split; [| exact Hfind].
    by apply String.eqb_eq in Htest.
  - apply enum_choices_elem. exists (member_name member). split; [| done].
    unfold __members__. apply elem_of_app. left. by apply list_elem_of_fmap_2.
Qed.

(** A value that is no name of the enum up to case is refused with the
    usage error of [click.Choice]. *)
Theorem enum_convert_rejects_unknown `{PyBuiltins} `{ClickChoice} enumcls value :
  (∀ n, n ∈ __members__ enumcls → str_lower n ≠ str_lower value) →
  ∃ msg, EnumType_convert (EnumType_init enumcls false) value
         = inl (BadParameter msg).
Proof.
  intros Hnone. unfold EnumType_convert, Choice_convert.
  cbn [_casesensitive _enumcls negb].
  rewrite bool_decide_eq_false_2; [by eexists |].
  intros (n & Hn & Heq)%enum_choices_elem. by apply (Hnone n).
Qed.

(** The name of an alias is among the choices, but iterating the enum does
    not yield aliases: a case-sensitive option given an alias name passes
    the check of the choices and then ends in [StopIteration], not in a
    usage error. *)
Theorem enum_alias_ends_in_StopIteration `{PyBuiltins} `{ClickChoice} enumcls alias :
  alias ∈ enum_aliases enumcls →
  (∀ m, m ∈ enum_members enumcls → member_name m ≠ alias) →
  alias ∈ choices (EnumType_init enumcls true)
  ∧ EnumType_convert (EnumType_init enumcls true) alias
    = inl (OtherException "StopIteration" []).
Proof.
  intros Halias Hfresh.
  assert (Hchoice : alias ∈ choices (EnumType_init enumcls true)).
  { apply enum_choices_elem. exists alias. split; [| done].
    unfold __members__. apply elem_of_app. by right. }
  split; [exact Hchoice |].
  unfold EnumType_convert, Choice_convert.
  rewrite bool_decide_eq_true_2 by exact Hchoice.
  cbn [_casesensitive _enumcls negb EnumType_init]. unfold next_member.
  destruct (List.find (fun m => String.eqb (member_name m) alias)
              (enum_members enumcls)) as [found |] eqn:Hfind; [| done].
  apply List.find_some in Hfind as [Hin Hname].
  apply list_elem_of_In in Hin. apply String.eqb_eq in Hname.
  by destruct (Hfresh found Hin).
Qed.

(** ** Listing *)

(** Nothing is listed that the hierarchy does not declare: every name of
    [list_commands] is the command name of a tagged callable in the
    namespace of the device type or of a device type among its ancestors;
    plain attributes and untagged callables are never listed. *)
Theorem listed_commands_are_declared `{PyBuiltins} D group ctx Y :
  DeviceGroup_init D = inr group →
  Y ∈ list_commands group ctx →
  ∃ A d, device_ancestor A D
         ∧ declares_last (class_namespace A) Y d
         ∧ commands group !! Y = Some d.
Proof.
  intros Hinit HY. unfold DeviceGroup_init in Hinit.
  destruct (_device_group_commands D) as [registry |] eqn:Hreg; [| discriminate].
  injection Hinit as <-. apply list_commands_elem in HY as [d Hd]. simpl in Hd.
  destruct (registry_sound D registry Y d Hreg Hd) as (A & HA & Hlast).
  by exists A, d.
Qed.

(** * Concrete runs

    The theorems above applied to the inputs of [Examples], with the
    reference built-ins. *)

#[local] Existing Instance Reference.builtins.
#[local] Existing Instance Reference.device_impl.

(** Proves [declares_last ns X d] for a concrete namespace, once the split
    of the namespace is given. *)
Ltac no_later_declaration :=
  let d' := fresh "d'" in
  let attr := fresh "attr" in
  let call := fresh "call" in
  let Hin := fresh "Hin" in
  let Hname := fresh "Hname" in
  intros d' (attr & call & Hin & Hname);
  unfold Command_call in Hin;
  repeat (apply elem_of_cons in Hin as [Hin | Hin];
          [first [ discriminate Hin
                 | injection Hin as _ _ ->; vm_compute in Hname; discriminate Hname ]
          |]);
  by apply elem_of_nil in Hin.



Lemma list_commands_sorted_complete_witness :
  StronglySorted str_lt (list_commands Examples.derived_group [])
  ∧ "reboot" ∈ list_commands Examples.derived_group [].
Proof.
  destruct (list_commands_sorted_complete (H := Reference.builtins)
              Examples.Derived Examples.derived_group [] eq_refl)
    as (Hsorted & _ & Hcover & _).
  split; [exact Hsorted |].
  apply (Hcover Examples.Base "reboot" Examples.base_reboot).
  - eapply ancestor_base; [apply elem_of_cons; by left | constructor].
  - eexists _, _. split; [| reflexivity].
    apply elem_of_cons. right. apply elem_of_cons. right.
    apply elem_of_cons. by left.
Defined.

(** The listing of the derived example type. *)
Example list_commands_derived :
  list_commands Examples.derived_group [] = ["info"; "reboot"; "status"].
Proof. vm_compute. reflexivity. Qed.

Lemma output_strategy_precedence_witness :
  wrap_output Examples.pretty_cmd Examples.ctx_json = json_output false
  ∧ wrap_output Examples.pretty_cmd Examples.ctx_plain = json_output true
  ∧ wrap_output Examples.status_cmd Examples.ctx_plain
    = format_output (FmtStr "Running command status") default_result_msg_fmt.
Proof.
  split; [| split].
  - destruct (output_strategy_precedence Examples.pretty_cmd Examples.ctx_json
                Examples.returns_one Reference.fresh_world) as (_ & Hoverride & _).
    apply (Hoverride (mkGlobalContextObject 0 (Some (json_output false))));
      reflexivity.
  - destruct (output_strategy_precedence Examples.pretty_cmd Examples.ctx_plain
                Examples.returns_one Reference.fresh_world) as (_ & _ & Hdefault & _).
    apply Hdefault; [| reflexivity].
    intros gco [= <-]. reflexivity.
  - destruct (output_strategy_precedence Examples.status_cmd Examples.ctx_plain
                Examples.returns_one Reference.fresh_world) as (_ & _ & _ & Hgeneric).
    apply Hgeneric; [| reflexivity].
    intros gco [= <-]. reflexivity.
Defined.



(** C2 at a concrete input: the descriptor of [info] asks to skip the
    guard, nothing is cached, and yet one call of the command resolved
    through the group performs one info-fetch; the guard called on the same
    world without a resolution in between performs none. *)
Theorem skip_autodetect_lost_on_resolution :
  kwargs_of (cmd_ref Examples.info_cmd) Examples.plug_world !! "skip_autodetect"
  = Some (PyBool true)
  ∧ match Examples.resolve_and_call Examples.Plug Examples.lamp_ctx "info"
            Examples.plug_world with
    | Some (Ok PyNone, w) => fetch_count w = 1
    | _ => False
    end
  ∧ fetch_count
      (snd (_autodetect_model_if_needed (cmd_ref Examples.info_cmd)
              (fn_body Examples.info_fn) [] ∅ Examples.plug_world)) = 0.
Proof. split; [| split]; vm_compute; reflexivity. Qed.

Lemma guard_no_second_fetch_witness :
  let w1 := snd (_autodetect_model_if_needed 1%positive (fn_body Examples.status_fn)
                   [] ∅ Examples.lamp_world) in
  _autodetect_model_if_needed 2%positive (fn_body Examples.info_fn) [] ∅ w1
  = fn_body Examples.info_fn [] ∅
      (snd (pop_kwarg 2%positive "skip_autodetect" (PyBool false) w1))
  ∧ fetch_count w1 = 1
  ∧ fetch_count
      (snd (_autodetect_model_if_needed 2%positive (fn_body Examples.info_fn)
              [] ∅ w1)) = 1.
Proof.
  intros w1.
  destruct (guard_no_second_fetch
              1%positive (fn_body Examples.status_fn) [] ∅
              2%positive (fn_body Examples.info_fn) [] ∅
              Examples.lamp_world
              (fst (_autodetect_model_if_needed 1%positive
                      (fn_body Examples.status_fn) [] ∅ Examples.lamp_world))
              w1) as (Hrun & _).
  - apply surjective_pairing.
  - left. vm_compute. discriminate.
  - split; [exact Hrun |]. split; vm_compute; reflexivity.
Defined.

Lemma display_string_replaces_template_witness :
  emitted (snd (format_output default_msg_fmt default_result_msg_fmt
                  Examples.returns_displayable [] ∅ Reference.fresh_world))
  = [PyStr "  ready-made  "].
Proof.
  destruct (display_string_replaces_template default_msg_fmt "{result}"
              Examples.returns_displayable [] ∅ Reference.fresh_world
              Reference.fresh_world Reference.fresh_world Examples.displayable)
    as [_ Hemitted].
  - reflexivity.
  - reflexivity.
  - vm_compute. discriminate.
  - exact Hemitted.
Defined.

(** C6, as stated, fails: with a callable post-message spec the display
    string of the result is not emitted; the callable is rendered. *)
Lemma callable_result_fmt_hides_display_string :
  getattr Examples.displayable "__cli_output__" = PyStr "  ready-made  "
  ∧ emitted (snd (format_output default_msg_fmt Examples.custom_fmt
                    Examples.returns_displayable [] ∅ Reference.fresh_world))
    = [PyStr "custom"].
Proof. split; vm_compute; reflexivity. Qed.

Lemma json_output_recovers_device_error_witness :
  json_output false Examples.failing [] ∅ Reference.fresh_world
  = (Ok PyNone,
     snd (echo (PyStr ("{" ++ Reference.json_str "code" ++ ": 7}"))
            Reference.fresh_world)).
Proof.
  destruct (json_output_recovers_device_error false Examples.failing [] ∅
              Reference.fresh_world Reference.fresh_world
              Examples.error_payload [PyStr "device said no"]
              ("{" ++ Reference.json_str "code" ++ ": 7}")) as [Hrun _].
  - reflexivity.
  - reflexivity.
  - exact Hrun.
Defined.

Lemma output_wrappers_return_None_witness :
  ∃ v w',
    format_output default_msg_fmt default_result_msg_fmt Examples.returns_one
      [] ∅ Reference.fresh_world = (Ok v, w')
    ∧ v = PyNone
    ∧ emitted w' = [PyStr "1"].
Proof.
  eexists _, _. split; [vm_compute; reflexivity |].
  split; [| vm_compute; reflexivity].
  eapply (proj1 (output_wrappers_return_None Examples.returns_one [] ∅
                   Reference.fresh_world _ _)
            default_msg_fmt default_result_msg_fmt).
  vm_compute. reflexivity.
Defined.

(** The pretty-printed rendering of the same payload. *)
Example json_output_pretty_payload :
  emitted (snd (json_output true Examples.failing [] ∅ Reference.fresh_world))
  = [PyStr ("{" ++ String "010"%char ("  " ++ Reference.json_str "code" ++ ": 7"
                 ++ String "010"%char "}"))].
Proof. vm_compute. reflexivity. Qed.

(** ** Concrete runs of the further properties *)

#[local] Existing Instance Cases.logging.
#[local] Existing Instance Cases.click_choice.

Ltac concrete_elem := apply (bool_decide_unpack _); vm_compute; exact I.

Lemma listed_commands_resolve_witness :
  (∃ cmd w', get_command Examples.derived_group [] "status" Reference.fresh_world
             = (Ok cmd, w'))
  ∧ get_command Examples.derived_group [] "nonexistent" Reference.fresh_world
    = (Raise (UsageError "Unknown command (nonexistent)"), Reference.fresh_world).
Proof.
  split.
  - apply (proj1 (listed_commands_resolve Examples.derived_group [] "status"
                    Reference.fresh_world)).
    concrete_elem.
  - apply (proj2 (listed_commands_resolve Examples.derived_group [] "nonexistent"
                    Reference.fresh_world)).
    intros Hin. apply (bool_decide_pack _) in Hin. vm_compute in Hin. exact Hin.
Defined.

Lemma resolved_command_attributes_witness :
  match get_command Cases.plug_group Examples.lamp_ctx "info" Examples.plug_world with
  | (Ok cmd, w') =>
      click_name cmd = "info"
      ∧ click_attrs cmd !! "skip_autodetect" = None
      ∧ click_attrs cmd !! "help" = Some PyNone
      ∧ trace w' = []
  | (Raise _, _) => False
  end.
Proof.
  destruct (get_command Cases.plug_group Examples.lamp_ctx "info" Examples.plug_world)
    as [[cmd | e] w'] eqn:Hget.
  - destruct (resolved_command_attributes Examples.Plug Cases.plug_group
                Examples.lamp_ctx "info" Examples.plug_world cmd w' eq_refl Hget)
      as (d & Hd & Hname & Hattrs & _ & Htrace & _).
    vm_compute in Hd. injection Hd as <-.
    split; [exact Hname |]. rewrite Hattrs, Htrace.
    split; [| split]; vm_compute; reflexivity.
  - vm_compute in Hget. discriminate Hget.
Defined.

Lemma resolution_idempotent_witness :
  get_command Cases.plug_group Examples.lamp_ctx "info"
    (snd (get_command Cases.plug_group Examples.lamp_ctx "info" Examples.plug_world))
  = get_command Cases.plug_group Examples.lamp_ctx "info" Examples.plug_world.
Proof.
  destruct (get_command Cases.plug_group Examples.lamp_ctx "info" Examples.plug_world)
    as [[cmd | e] w'] eqn:Hget.
  - simpl. exact (resolution_idempotent _ _ _ _ _ _ Hget).
  - vm_compute in Hget. discriminate Hget.
Defined.

Lemma last_base_wins_witness :
  ∃ registry,
    _device_group_commands Cases.Three = Some registry
    ∧ registry !! "status" = Some Cases.right_status.
Proof.
  eapply (last_base_wins "Three" [Cases.Left] Cases.Right [Cases.Idle] []).
  - reflexivity.
  - vm_compute. reflexivity.
  - intros B' regB' HB' HregB'.
    apply elem_of_cons in HB' as [-> | HB']; [| by apply elem_of_nil in HB'].
    vm_compute in HregB'. injection HregB' as <-. vm_compute. reflexivity.
  - no_later_declaration.
Defined.

Lemma registry_and_dispatch_disagree_witness :
  ∃ registry,
    _device_group_commands Cases.Both = Some registry
    ∧ registry !! "status" = Some Cases.right_status
    ∧ command_callback (mkDeviceGroup registry Cases.Both) Cases.right_status
      = _autodetect_model_if_needed 20%positive (fn_body (func Cases.left_status)).
Proof.
  eapply (registry_and_dispatch_disagree "Both" "Left" []
            [("status", Command_call Cases.left_status)] Cases.Right
            [("timeout", NsData (PyInt 5))]).
  - no_later_declaration.
  - reflexivity.
  - reflexivity.
  - reflexivity.
  - vm_compute. reflexivity.
Defined.

Lemma undecorated_override_bypasses_guard_witness :
  ∃ registry,
    _device_group_commands Cases.Override = Some registry
    ∧ registry !! "status" = Some Cases.left_status
    ∧ command_callback (mkDeviceGroup registry Cases.Override) Cases.left_status
      = Cases.plain_status.
Proof.
  eapply (undecorated_override_bypasses_guard "Override" Cases.Left
            [("status", NsCallable Cases.plain_status None)]).
  - reflexivity.
  - vm_compute. reflexivity.
  - no_later_declaration.
  - reflexivity.
Defined.

(** Every tagged callable of the namespace is bound under its function's
    name, for a concrete namespace. *)
Ltac concrete_bound_by_def :=
  let attr := fresh "attr" in
  let call := fresh "call" in
  let d := fresh "d" in
  let Hin := fresh "Hin" in
  intros attr call d Hin; unfold Command_call in Hin;
  repeat (apply elem_of_cons in Hin as [Hin | Hin];
          [first [ discriminate Hin | injection Hin as -> _ ->; reflexivity ] |]);
  by apply elem_of_nil in Hin.

Lemma registered_commands_have_attribute_witness :
  is_Some (class_getattr Examples.Derived "Reboot").
Proof.
  apply (registered_commands_have_attribute Examples.Derived
           (default ∅ (_device_group_commands Examples.Derived))
           "reboot" Examples.base_reboot).
  - intros A HA. inversion HA as [| ? B ? ? ? HB HAB]; subst.
    + concrete_bound_by_def.
    + apply elem_of_cons in HB as [-> | HB]; [| by apply elem_of_nil in HB].
      inversion HAB as [| ? B' ? ? ? HB' HAB']; subst.
      * concrete_bound_by_def.
      * apply elem_of_cons in HB' as [-> | HB']; [| by apply elem_of_nil in HB'].
        inversion HAB'.
  - reflexivity.
  - vm_compute. reflexivity.
Defined.

Lemma nearest_global_context_decides_witness :
  wrap_output Examples.pretty_cmd
    [ObjDevice; ObjNone; ObjGlobal (mkGlobalContextObject 0 None);
     ObjGlobal (mkGlobalContextObject 1 (Some (json_output false)))]
  = json_output true.
Proof.
  rewrite (nearest_global_context_decides Examples.pretty_cmd [ObjDevice; ObjNone]
             (mkGlobalContextObject 0 None)
             [ObjGlobal (mkGlobalContextObject 1 (Some (json_output false)))]).
  - reflexivity.
  - intros obj gco Hin.
    apply elem_of_cons in Hin as [-> | Hin]; [discriminate |].
    apply elem_of_cons in Hin as [-> | Hin]; [discriminate |].
    by apply elem_of_nil in Hin.
Defined.

Lemma fetch_failure_stops_command_witness :
  _autodetect_model_if_needed (H := Cases.unreachable_device) 1%positive
    Cases.quiet [] ∅ Examples.lamp_world
  = (Raise (OtherException "DeviceException" [PyStr "no response"]),
     snd (_fetch_info (H := Cases.unreachable_device) Examples.lamp_world)).
Proof.
  apply (fetch_failure_stops_command (H := Cases.unreachable_device));
    reflexivity.
Defined.

Lemma skip_honoured_once_witness :
  fetch_count
    (snd (_autodetect_model_if_needed 2%positive Cases.quiet [] ∅
            Examples.plug_world)) = 0
  ∧ fetch_count
      (snd (_autodetect_model_if_needed 2%positive Cases.quiet [] ∅
              (snd (_autodetect_model_if_needed 2%positive Cases.quiet [] ∅
                      Examples.plug_world)))) = 1.
Proof.
  destruct (skip_honoured_once 2%positive Cases.quiet [] ∅ Examples.plug_world
              (PyBool true)) as (Hfirst & _ & Hnext).
  - reflexivity.
  - reflexivity.
  - rewrite Hfirst. split; [vm_compute; reflexivity |].
    rewrite (Hnext _ _ Cases.quiet [] ∅ (surjective_pairing _));
      vm_compute; reflexivity.
Defined.

Lemma unrenderable_templates_witness :
  format_output (FmtStr "{missing}") default_result_msg_fmt Examples.returns_one
    [] ∅ Reference.fresh_world
  = (Raise (KeyError "missing"), Reference.fresh_world)
  ∧ format_output default_msg_fmt (FmtStr "{missing}") Cases.sets_model
      [] ∅ Reference.fresh_world
    = (Raise (KeyError "missing"), snd (Cases.sets_model [] ∅ Reference.fresh_world)).
Proof.
  split.
  - apply (proj1 (unrenderable_templates Examples.returns_one [] ∅
                    Reference.fresh_world (KeyError "missing")));
      [discriminate | reflexivity].
  - apply (proj2 (unrenderable_templates Cases.sets_model [] ∅
                    Reference.fresh_world (KeyError "missing"))
             default_msg_fmt "{missing}" Reference.fresh_world
             (snd (Cases.sets_model [] ∅ Reference.fresh_world)) (PyInt 1));
      [reflexivity | reflexivity | reflexivity | discriminate | reflexivity].
Defined.

Lemma json_output_prefers_structured_view_witness :
  emitted (snd (json_output false (Cases.returns Cases.with_json_and_data) [] ∅
                  Reference.fresh_world))
  = [PyStr ("{" ++ Reference.json_str "power" ++ ": " ++ Reference.json_str "on"
                ++ "}")]
  ∧ emitted (snd (json_output false (Cases.returns Cases.with_data) [] ∅
                    Reference.fresh_world))
    = [PyStr ("{" ++ Reference.json_str "raw" ++ ": 1}")].
Proof.
  split.
  - destruct (json_output_prefers_structured_view false
                (Cases.returns Cases.with_json_and_data) [] ∅ Reference.fresh_world
                Reference.fresh_world Cases.with_json_and_data
                ("{" ++ Reference.json_str "power" ++ ": " ++ Reference.json_str "on"
                     ++ "}")) as (Hjson & _ & _); [reflexivity |].
    rewrite (Hjson (PyDict [("power", PyStr "on")])); reflexivity.
  - destruct (json_output_prefers_structured_view false
                (Cases.returns Cases.with_data) [] ∅ Reference.fresh_world
                Reference.fresh_world Cases.with_data
                ("{" ++ Reference.json_str "raw" ++ ": 1}"))
      as (_ & Hdata & _); [reflexivity |].
    rewrite Hdata; [reflexivity | reflexivity | vm_compute; discriminate | reflexivity].
Defined.

Lemma json_recovery_limits_witness :
  json_output false Cases.bare_failure [] ∅ Reference.fresh_world
  = (Raise IndexError, Reference.fresh_world)
  ∧ json_output false Cases.opaque_failure [] ∅ Reference.fresh_world
    = (Raise (TypeError "Object is not JSON serializable"), Reference.fresh_world).
Proof.
  split.
  - apply (proj1 (json_recovery_limits false Cases.bare_failure [] ∅
                    Reference.fresh_world Reference.fresh_world)).
    reflexivity.
  - apply (proj2 (json_recovery_limits false Cases.opaque_failure [] ∅
                    Reference.fresh_world Reference.fresh_world)
             (PyObj "Response" []) []); reflexivity.
Defined.

(** A failing command is logged and swallowed; the end of a standalone run
    passes. *)
Example boundary_runs :
  ExceptionHandlerGroup_call Cases.failing_main [] ∅ Reference.fresh_world
  = (inr PyNone,
     mkWorld (mkDevice None None) ∅
       [EvEcho (PyStr "working"); EvNote "logged exception"])
  ∧ ExceptionHandlerGroup_call Cases.standalone_main [] ∅ Reference.fresh_world
    = (inl (SystemExit 0),
       mkWorld (mkDevice None None) ∅ [EvEcho (PyStr "done")]).
Proof. split; reflexivity. Qed.

Lemma lower_char_idempotent (c : ascii) :
  Reference.lower_char (Reference.lower_char c) = Reference.lower_char c.
Proof. destruct c as [[] [] [] [] [] [] [] []]; reflexivity. Qed.

Lemma lower_idempotent (s : string) :
  Reference.lower (Reference.lower s) = Reference.lower s.
Proof.
  induction s as [| c s IH]; simpl; [reflexivity |].
  by rewrite lower_char_idempotent, IH.
Qed.

Lemma enum_convert_ignores_case_witness :
  EnumType_convert (EnumType_init Cases.Speed false) "HiGh"
  = inr (mkEnumMember "HIGH" (PyInt 2))
  ∧ EnumType_convert (EnumType_init Cases.Speed false) "high"
    = inr (mkEnumMember "HIGH" (PyInt 2)).
Proof.
  split.
  - destruct (enum_convert_ignores_case Cases.Speed "HiGh"
                (mkEnumMember "HIGH" (PyInt 2)))
      as (found & Hconvert & _ & Hfind);
      [exact lower_idempotent
      | apply elem_of_cons; right; apply elem_of_cons; by left
      | reflexivity |].
    vm_compute in Hfind. injection Hfind as <-. exact Hconvert.
  - destruct (enum_convert_ignores_case Cases.Speed "high"
                (mkEnumMember "high" (PyInt 3)))
      as (found & Hconvert & _ & Hfind);
      [exact lower_idempotent
      | apply elem_of_cons; right; apply elem_of_cons; right;
        apply elem_of_cons; by left
      | reflexivity |].
    vm_compute in Hfind. injection Hfind as <-. exact Hconvert.
Defined.

Lemma enum_convert_rejects_unknown_witness :
  ∃ msg, EnumType_convert (EnumType_init Cases.Speed false) "turbo"
         = inl (BadParameter msg).
Proof.
  apply enum_convert_rejects_unknown. intros n Hn.
  repeat (apply elem_of_cons in Hn as [-> | Hn]; [vm_compute; discriminate |]).
  by apply elem_of_nil in Hn.
Defined.

Lemma enum_alias_ends_in_StopIteration_witness :
  EnumType_convert (EnumType_init Cases.Speed true) "Fast"
  = inl (OtherException "StopIteration" []).
Proof.
  apply (proj2 (enum_alias_ends_in_StopIteration Cases.Speed "Fast"
                  ltac:(concrete_elem)
                  ltac:(intros m Hm;
                        repeat (apply elem_of_cons in Hm as [-> | Hm];
                                [discriminate |]);
                        by apply elem_of_nil in Hm))).
Defined.

Lemma listed_commands_are_declared_witness :
  ∃ A d, device_ancestor A Examples.Derived
         ∧ declares_last (class_namespace A) "reboot" d
         ∧ commands Examples.derived_group !! "reboot" = Some d.
Proof.
  apply (listed_commands_are_declared Examples.Derived Examples.derived_group []
           "reboot" eq_refl).
  concrete_elem.
Defined.


(** C8, as stated, fails for an ancestor outside the framework: the group
    of [Gadget] lists [status] alone, not the [ping] that its base [Mixin]
    tags as a command. *)
Lemma plain_base_command_not_listed :
  DeviceGroup_init Cases.Gadget = inr Cases.gadget_group
  ∧ declares (class_namespace Cases.Mixin) "ping" Cases.ping_cmd
  ∧ list_commands Cases.gadget_group [] = ["status"]
  ∧ "ping" ∉ list_commands Cases.gadget_group [].
Proof.
  assert (Hlist : list_commands Cases.gadget_group [] = ["status"])
    by (vm_compute; reflexivity).
  split; [reflexivity |]. split; [| split; [exact Hlist |]].
  - eexists _, _. split; [apply elem_of_cons; by left | reflexivity].
  - rewrite Hlist. intros Hin.
    apply elem_of_cons in Hin as [Hin | Hin]; [discriminate | by apply elem_of_nil in Hin].
Qed.
